(** * current_weather_cli: a model of [script.py]

    The script polls a weather service, stores one row per poll in a
    PostgreSQL table and, on request, exports the ten newest rows to a
    spreadsheet.  This file embeds the script function by function and
    proves the properties its specification states about it.

    Layout: Python values and builtins, the three translators, the
    database and the worksheet as the script uses them, the effectful
    functions in a state-and-exception monad, then the theorems. *)

From Stdlib Require Import ZArith QArith List String Ascii Bool Lia Floats Sorted.
Import ListNotations.
Local Open Scope string_scope.
Local Open Scope list_scope.
Local Open Scope Z_scope.

Set Implicit Arguments.

(* ===================================================================== *)
(** * Python values *)
(* ===================================================================== *)

(** The values the script handles: what [json] decoding yields, what the
    translators return and what is bound to SQL parameters.  A [dict] keeps
    insertion order, so it is an association list. *)
#[warnings="-register-all"]
Inductive pyval : Type :=
| PNone
| PBool (b : bool)
| PInt (z : Z)
| PFloat (f : float)
| PStr (s : string)
| PList (l : list pyval)
| PDict (d : list (string * pyval)).

(** Exact value of a binary64 number; [None] for NaN and the infinities. *)
Definition float_value (f : float) : option Q :=
  match Prim2SF f with
  | S754_zero _ => Some (0 # 1)%Q
  | S754_finite s m e =>
      let n := if s then Z.neg m else Z.pos m in
      Some (match e with
            | Z0 => (n # 1)%Q
            | Z.pos p => (n * Z.pow 2 (Z.pos p) # 1)%Q
            | Z.neg p => (n # Pos.pow 2 p)%Q
            end)
  | S754_infinity _ | S754_nan => None
  end.

(** The number a value stands for in a comparison: [bool] is a subclass of
    [int], [True == 1] and [False == 0]. *)
Definition py_num (v : pyval) : option Q :=
  match v with
  | PBool b => Some (if b then 1 # 1 else 0 # 1)%Q
  | PInt z => Some (z # 1)%Q
  | PFloat f => float_value f
  | _ => None
  end.

(** Literals that occur as [case] patterns. *)
Inductive literal : Type :=
| LitInt (z : Z)
| LitFloat (f : float)
| LitStr (s : string).

Definition literal_num (l : literal) : option Q :=
  match l with
  | LitInt z => Some (z # 1)%Q
  | LitFloat f => float_value f
  | LitStr _ => None
  end.

(** [subject == literal], the test a literal pattern of [match] performs.
    Numbers of any numeric type compare by exact value (NaN equals
    nothing); a string equals only an identical string; values of
    unrelated types are unequal, never an error. *)
Definition py_eq (subject : pyval) (l : literal) : bool :=
  match l with
  | LitStr s =>
      match subject with
      | PStr t => String.eqb t s
      | _ => false
      end
  | _ =>
      match py_num subject, literal_num l with
      | Some a, Some b => Qeq_bool a b
      | _, _ => false
      end
  end.

(** A [match] statement whose cases are literal patterns each returning a
    string; falling off the end of the function returns [None]. *)
Fixpoint py_match (subject : pyval) (cases : list (literal * string)) : pyval :=
  match cases with
  | [] => PNone
  | (l, label) :: rest =>
      if py_eq subject l then PStr label else py_match subject rest
  end.

(* ===================================================================== *)
(** * Field translators (script.py, lines 32-90) *)
(* ===================================================================== *)

Definition wind_direction_cases : list (literal * string) :=
  [ (LitStr "nw", "Cеверо-западное");
    (LitStr "n",  "Северное");
    (LitStr "ne", "Северно-восточное");
    (LitStr "e",  "Восточное");
    (LitStr "se", "Юго-восточное");
    (LitStr "s",  "Южное");
    (LitStr "sw", "Юго-западное");
    (LitStr "w",  "Западное");
    (LitStr "c",  "Штиль") ].

Definition convert_wind_direction (wind_direction : pyval) : pyval :=
  py_match wind_direction wind_direction_cases.

Definition precipitation_type_cases : list (literal * string) :=
  [ (LitInt 0, "Без осадков");
    (LitInt 1, "Дождь");
    (LitInt 2, "Дождь со снегом");
    (LitInt 3, "Снег");
    (LitInt 4, "Град") ].

Definition convert_precipitation_type (precipitation_type : pyval) : pyval :=
  py_match precipitation_type precipitation_type_cases.

Definition precipitation_strength_cases : list (literal * string) :=
  [ (LitInt 0, "Без осадков");
    (LitFloat 0.25, "Слабые осадки");
    (LitFloat 0.5, "Рядовые осадки");
    (LitFloat 0.75, "Сильные осадки");
    (LitInt 1, "Очень сильные осадки") ].

Definition convert_precipitation_strength (precipitation_strength : pyval) : pyval :=
  py_match precipitation_strength precipitation_strength_cases.

(* ===================================================================== *)
(** * Exceptions and builtins *)
(* ===================================================================== *)

(** Exception classes of the aiohttp client, as its documentation arranges
    them under [ClientError]. *)
Inductive aiohttp_class : Type :=
| ClientResponseError
| ContentTypeError
| TooManyRedirects
| ClientConnectionError
| ClientOSError
| ClientConnectorError
| ServerDisconnectedError
| ServerTimeoutError
| ClientPayloadError
| InvalidURL.

(** [isinstance(e, aiohttp.ClientResponseError)]. *)
Definition is_ClientResponseError (c : aiohttp_class) : bool :=
  match c with
  | ClientResponseError | ContentTypeError | TooManyRedirects => true
  | _ => false
  end.


Inductive asyncpg_class : Type :=
| UndefinedTableError     (* the relation named in the statement is absent *)
| InterfaceError.         (* wrong number of query arguments *)

Inductive exn : Type :=
| SystemExit (message : string)       (* [sys.exit(message)] *)
| KeyboardInterrupt
| KeyError (key : string)
| IndexError
| TypeError
| ValueError
| OverflowError
| AiohttpError (cls : aiohttp_class) (text : string)
| JSONDecodeError
| AsyncpgError (cls : asyncpg_class).

Inductive result (A : Type) : Type :=
| Ok (a : A)
| Raise (e : exn).
Arguments Ok {A} a.
Arguments Raise {A} e.

(** ** Reading numbers from text *)

Definition is_digit (c : ascii) : bool :=
  (48 <=? Z.of_nat (nat_of_ascii c)) && (Z.of_nat (nat_of_ascii c) <=? 57).

Definition digit_value (c : ascii) : Z := Z.of_nat (nat_of_ascii c) - 48.

(** Whitespace that [str.strip] removes, within ASCII. *)
Definition is_space (c : ascii) : bool :=
  let n := Z.of_nat (nat_of_ascii c) in
  ((9 <=? n) && (n <=? 13)) || ((28 <=? n) && (n <=? 32)).

Fixpoint lstrip (s : list ascii) : list ascii :=
  match s with
  | c :: rest => if is_space c then lstrip rest else s
  | [] => []
  end.

Definition strip (s : list ascii) : list ascii :=
  rev (lstrip (rev (lstrip s))).

(** Underscores may group digits: each must stand between two digits.
    [prev] is the character before [s]; the result is [s] without them. *)
Fixpoint drop_underscores (prev : option ascii) (s : list ascii)
  : option (list ascii) :=
  let prev_digit := match prev with Some p => is_digit p | None => false end in
  let prev_underscore :=
    match prev with Some p => Ascii.eqb p "_" | None => false end in
  match s with
  | [] => if prev_underscore then None else Some []
  | c :: rest =>
      if Ascii.eqb c "_" then
        if prev_digit then drop_underscores (Some c) rest else None
      else if prev_underscore && negb (is_digit c) then None
      else option_map (cons c) (drop_underscores (Some c) rest)
  end.

(** A maximal run of digits: its value on top of [acc], its length, the rest. *)
Fixpoint read_digits (acc : Z) (n : nat) (s : list ascii)
  : Z * nat * list ascii :=
  match s with
  | c :: rest =>
      if is_digit c then read_digits (10 * acc + digit_value c) (S n) rest
      else (acc, n, s)
  | [] => (acc, n, [])
  end.

Definition read_sign (s : list ascii) : bool * list ascii :=
  match s with
  | "-"%char :: rest => (true, rest)
  | "+"%char :: rest => (false, rest)
  | _ => (false, s)
  end.

(** [int(s)] for a string, base ten. *)
Definition py_int_of_str (s : string) : result Z :=
  match drop_underscores None (strip (list_ascii_of_string s)) with
  | None => Raise ValueError
  | Some body =>
      let '(negative, digits) := read_sign body in
      match read_digits 0 0 digits with
      | (value, S _, []) => Ok (if negative then - value else value)
      | _ => Raise ValueError
      end
  end.

Definition lower (c : ascii) : ascii :=
  let n := nat_of_ascii c in
  if ((65 <=? Z.of_nat n) && (Z.of_nat n <=? 90))%Z
  then ascii_of_nat (n + 32) else c.

(** The binary64 number nearest to [m * 10^x], ties to even. *)
Definition round_decimal (negative : bool) (m : Z) (x : Z) : float :=
  match m with
  | Z.pos p =>
      SF2Prim
        (match x with
         | Z.neg k =>
             SFdiv prec emax (S754_finite negative p 0)
                   (S754_finite false (Pos.pow 10 k) 0)
         | _ => binary_normalize prec emax
                  ((if negative then Z.neg p else Z.pos p) * Z.pow 10 x) 0 false
         end)
  | _ => if negative then neg_zero else zero
  end.

(** The exponent part of a decimal literal, if [s] is exactly one. *)
Definition read_exponent (s : list ascii) : option Z :=
  match s with
  | [] => Some 0
  | c :: rest =>
      if Ascii.eqb (lower c) "e" then
        let '(negative, digits) := read_sign rest in
        match read_digits 0 0 digits with
        | (value, S _, []) => Some (if negative then - value else value)
        | _ => None
        end
      else None
  end.

(** [float(s)] for a string: optional sign, then [inf], [infinity], [nan]
    or a decimal literal with optional fraction and exponent.  Digits and
    blanks outside ASCII, which Python also accepts, are not covered: such
    strings are read as malformed. *)
Definition py_float_of_str (s : string) : result float :=
  match drop_underscores None (strip (list_ascii_of_string s)) with
  | None => Raise ValueError
  | Some body =>
      let '(negative, unsigned) := read_sign body in
      let word := string_of_list_ascii (map lower unsigned) in
      if String.eqb word "inf" || String.eqb word "infinity" then
        Ok (if negative then neg_infinity else infinity)
      else if String.eqb word "nan" then Ok nan
      else
        let '(int_part, int_len, after_int) := read_digits 0 0 unsigned in
        let '(mantissa, frac_len, after_frac) :=
          match after_int with
          | "."%char :: frac => read_digits int_part 0 frac
          | _ => (int_part, O, after_int)
          end in
        match (int_len + frac_len)%nat, read_exponent after_frac with
        | S _, Some e => Ok (round_decimal negative mantissa (e - Z.of_nat frac_len))
        | _, _ => Raise ValueError
        end
  end.

(** [float(v)]. *)
Definition py_float (v : pyval) : result float :=
  match v with
  | PFloat f => Ok f
  | PBool b => Ok (if b then one else zero)
  | PInt z =>
      match binary_normalize prec emax z 0 false with
      | S754_infinity _ => Raise OverflowError
      | f => Ok (SF2Prim f)
      end
  | PStr s => py_float_of_str s
  | PNone | PList _ | PDict _ => Raise TypeError
  end.

(** First binding of [key] in a [dict]. *)
Fixpoint dict_get (d : list (string * pyval)) (key : string) : option pyval :=
  match d with
  | [] => None
  | (k, v) :: rest => if String.eqb k key then Some v else dict_get rest key
  end.

(** [v[key]] with a string key. *)
Definition py_getitem (v : pyval) (key : string) : result pyval :=
  match v with
  | PDict d =>
      match dict_get d key with
      | Some x => Ok x
      | None => Raise (KeyError key)
      end
  | _ => Raise TypeError
  end.

(** [list(d.values())]. *)
Definition dict_values (d : list (string * pyval)) : list pyval := map snd d.

(** [int(v)]. *)
Definition py_int (v : pyval) : result Z :=
  match v with
  | PInt z => Ok z
  | PBool b => Ok (if b then 1 else 0)
  | PFloat f =>
      match Prim2SF f with
      | S754_zero _ => Ok 0
      | S754_finite s m e =>
          let magnitude :=
            match e with
            | Z.neg k => Z.pos m / Z.pow 2 (Z.pos k)
            | _ => Z.pos m * Z.pow 2 e
            end in
          Ok (if s then - magnitude else magnitude)
      | S754_infinity _ => Raise OverflowError
      | S754_nan => Raise ValueError
      end
  | PStr s => py_int_of_str s
  | PNone | PList _ | PDict _ => Raise TypeError
  end.

(** Truth value of an optional string: [None] and the empty string are
    false. *)
Definition truthy (s : option string) : bool :=
  match s with
  | Some (String _ _) => true
  | _ => false
  end.

(* ===================================================================== *)
(** * The database, as the script's four statements see it *)
(* ===================================================================== *)

Inductive column : Type :=
| Temperature
| WindDirection
| WindSpeed
| Pressure
| PrecipitationType
| PrecipitationStrength.

(** A row of [weather_data]; SQL NULL is [PNone]. *)
Record row : Type := mkRow {
  id : Z;
  temperature : pyval;
  wind_direction : pyval;
  wind_speed : pyval;
  pressure : pyval;
  precipitation_type : pyval;
  precipitation_strength : pyval
}.

Definition get_column (r : row) (c : column) : pyval :=
  match c with
  | Temperature => temperature r
  | WindDirection => wind_direction r
  | WindSpeed => wind_speed r
  | Pressure => pressure r
  | PrecipitationType => precipitation_type r
  | PrecipitationStrength => precipitation_strength r
  end.

Definition set_column (r : row) (c : column) (v : pyval) : row :=
  match c with
  | Temperature => mkRow (id r) v (wind_direction r) (wind_speed r) (pressure r)
                         (precipitation_type r) (precipitation_strength r)
  | WindDirection => mkRow (id r) (temperature r) v (wind_speed r) (pressure r)
                           (precipitation_type r) (precipitation_strength r)
  | WindSpeed => mkRow (id r) (temperature r) (wind_direction r) v (pressure r)
                       (precipitation_type r) (precipitation_strength r)
  | Pressure => mkRow (id r) (temperature r) (wind_direction r) (wind_speed r) v
                      (precipitation_type r) (precipitation_strength r)
  | PrecipitationType => mkRow (id r) (temperature r) (wind_direction r)
                               (wind_speed r) (pressure r) v
                               (precipitation_strength r)
  | PrecipitationStrength => mkRow (id r) (temperature r) (wind_direction r)
                                   (wind_speed r) (pressure r)
                                   (precipitation_type r) v
  end.

Definition column_name (c : column) : string :=
  match c with
  | Temperature => "temperature"
  | WindDirection => "wind_direction"
  | WindSpeed => "wind_speed"
  | Pressure => "pressure"
  | PrecipitationType => "precipitation_type"
  | PrecipitationStrength => "precipitation_strength"
  end.

(** The relation with the state of the sequence behind [id serial]; rows
    are kept in insertion order. *)
Record table : Type := mkTable {
  rows : list row;
  next_id : Z
}.

(** [None]: the relation [weather_data] does not exist. *)
Definition database : Type := option table.

Inductive sql : Type :=
| CreateTableIfNotExists
| InsertInto (cols : list column)        (* VALUES ($1, ..., $n), one per column *)
| SelectCount                            (* count( * ) AS exact_count *)
| SelectOrderByIdDescLimit (cols : list column) (limit : nat).

(** What [fetch] returns: each record maps the selected names to values,
    in the order of the select list. *)
Definition record : Type := list (string * pyval).

(** Binds the i-th argument to the i-th named column of a fresh row. *)
Fixpoint bind_columns (r : row) (cols : list column) (args : list pyval) : row :=
  match cols, args with
  | c :: cols', v :: args' => bind_columns (set_column r c v) cols' args'
  | _, _ => r
  end.

Fixpoint insert_by_id_desc (r : row) (sorted : list row) : list row :=
  match sorted with
  | [] => [r]
  | x :: rest =>
      if id x <? id r then r :: sorted else x :: insert_by_id_desc r rest
  end.

(** ORDER BY id DESC. *)
Fixpoint order_by_id_desc (l : list row) : list row :=
  match l with
  | [] => []
  | r :: rest => insert_by_id_desc r (order_by_id_desc rest)
  end.

Definition project (cols : list column) (r : row) : record :=
  map (fun c => (column_name c, get_column r c)) cols.

(** One statement with its arguments against the database: the new state
    and the records returned. *)
Definition run_sql (q : sql) (args : list pyval) (db : database)
  : result (database * list record) :=
  match q, db with
  | CreateTableIfNotExists, None => Ok (Some (mkTable [] 1), [])
  | CreateTableIfNotExists, Some t => Ok (Some t, [])
  | _, None => Raise (AsyncpgError UndefinedTableError)
  | InsertInto cols, Some t =>
      if Nat.eqb (List.length args) (List.length cols) then
        let fresh := mkRow (next_id t) PNone PNone PNone PNone PNone PNone in
        Ok (Some (mkTable (rows t ++ [bind_columns fresh cols args])
                          (next_id t + 1)), [])
      else Raise (AsyncpgError InterfaceError)
  | SelectCount, Some t =>
      Ok (db, [[("exact_count", PInt (Z.of_nat (List.length (rows t))))]])
  | SelectOrderByIdDescLimit cols limit, Some t =>
      Ok (db, map (project cols) (firstn limit (order_by_id_desc (rows t))))
  end.

(* ===================================================================== *)
(** * The worksheet *)
(* ===================================================================== *)

Record cell : Type := mkCell {
  cell_value : pyval;
  cell_bold : bool
}.

(** A sheet: its title and its rows of cells, sheet row 1 first. *)
Record worksheet : Type := mkSheet {
  title : string;
  grid : list (list cell)
}.

Definition empty_cell : cell := mkCell PNone false.

(** [worksheet.append(row)]: the values go into the next free sheet row. *)
Definition ws_append (ws : worksheet) (values : list pyval) : worksheet :=
  mkSheet (title ws) (grid ws ++ [map (fun v => mkCell v false) values]).

Definition set_bold (c : cell) : cell := mkCell (cell_value c) true.

(** The loop over [worksheet["A1:F1"]]: the range is sheet row 1, columns A
    to F; a cell of the range that does not exist yet is created empty. *)
Definition ws_bold_A1_F1 (ws : worksheet) : worksheet :=
  let first := match grid ws with r :: _ => r | [] => [] end in
  let below := match grid ws with _ :: rest => rest | [] => [] end in
  let padded := first ++ repeat empty_cell (6 - List.length first) in
  mkSheet (title ws) ((map set_bold (firstn 6 padded) ++ skipn 6 padded) :: below).

Definition fresh_workbook : worksheet := mkSheet "Sheet" [].

Definition set_title (ws : worksheet) (t : string) : worksheet :=
  mkSheet t (grid ws).

(* ===================================================================== *)
(** * The world the script runs in *)
(* ===================================================================== *)

(** What [parser.parse_args()] hands back: [-f/--frequency] stores its
    argument as given, a string, and defaults to [None]; [--excel] stores
    [True] and defaults to [False]. *)
Record namespace : Type := mkArgs {
  frequency : option string;
  excel : bool
}.

(** How the weather service answers one request. *)
Inductive http_reply : Type :=
| GetRaises (e : exn)         (* [session.get] raises *)
| JsonRaises (e : exn)        (* a response arrives, [response.json()] raises *)
| Body (data : pyval).        (* a response arrives and decodes to [data] *)

(** Everything outside the script that decides a run. *)
Record environment : Type := mkEnv {
  env_args : namespace;
  (** [Some text]: loading [.env] or connecting raises an exception that
      prints as [text] *)
  env_connect : option string;
  (** the answer to the n-th request, counting from 0 *)
  env_service : nat -> http_reply;
  (** how many further effects of the main thread happen before a job
      handed to the executor has finished *)
  env_lag : nat
}.

Inductive message : Type :=
| Text (s : string)
| Formatted (before : string) (value : list (string * pyval)) (after : string).

Inductive event : Type :=
| EvConnect
| EvSql (q : sql) (args : list pyval)
| EvGet (url : string) (params headers : list (string * string))
| EvPrint (m : message)
| EvSleep (seconds : Z)
| EvSave (path : string) (book : worksheet).

Definition files : Type := list (string * worksheet).

Fixpoint fs_read (path : string) (fs : files) : option worksheet :=
  match fs with
  | [] => None
  | (p, book) :: rest => if String.eqb p path then Some book else fs_read path rest
  end.

(** Writing replaces whatever the path held. *)
Definition fs_write (path : string) (book : worksheet) (fs : files) : files :=
  (path, book) :: filter (fun entry => negb (String.eqb (fst entry) path)) fs.

Record world : Type := mkWorld {
  w_db : database;
  w_files : files;
  (** jobs handed to the executor and not finished: the argument of each
      export call with the lag it has left *)
  w_pool : list (nat * list (list pyval));
  (** requests made so far *)
  w_gets : nat;
  (** effects so far, oldest first *)
  w_trace : list event
}.

Definition log (ev : event) (w : world) : world :=
  mkWorld (w_db w) (w_files w) (w_pool w) (w_gets w) (w_trace w ++ [ev]).

Definition set_db (db : database) (w : world) : world :=
  mkWorld db (w_files w) (w_pool w) (w_gets w) (w_trace w).

Definition set_pool (pool : list (nat * list (list pyval))) (w : world) : world :=
  mkWorld (w_db w) (w_files w) pool (w_gets w) (w_trace w).

(** ** Spreadsheet exporter (script.py, lines 224-240) *)

Definition export_data_to_xlsx_file (data : list (list pyval)) (w : world) : world :=
  let workbook := fresh_workbook in
  let worksheet := set_title workbook "Данные" in
  let worksheet := fold_left ws_append data worksheet in
  let worksheet := ws_bold_A1_F1 worksheet in
  log (EvSave "weather_data.xlsx" worksheet)
      (mkWorld (w_db w) (fs_write "weather_data.xlsx" worksheet (w_files w))
               (w_pool w) (w_gets w) (w_trace w)).

(** ** The executor's worker thread

    A job handed to the executor runs in a worker thread while the main
    thread goes on.  All the job does to the world is save the workbook, so
    a schedule of the two threads comes down to where that save falls among
    the effects of the main thread: [env_lag] says after how many of them.
    A statement for every [env_lag] holds for every schedule. *)

Definition due (job : nat * list (list pyval)) : bool := Nat.eqb (fst job) 0.

(** Before each effect of the main thread: jobs with no lag left finish,
    the others have one effect less to wait. *)
Definition poll (w : world) : world :=
  let finishing := filter due (w_pool w) in
  let waiting :=
    map (fun job => (Nat.pred (fst job), snd job))
        (filter (fun job => negb (due job)) (w_pool w)) in
  fold_left (fun w' job => export_data_to_xlsx_file (snd job) w')
            finishing (set_pool waiting w).

(** Waiting for the executor to shut down: every job left finishes. *)
Definition drain (w : world) : world :=
  fold_left (fun w' job => export_data_to_xlsx_file (snd job) w')
            (w_pool w) (set_pool [] w).

(** ** The monad of the coroutines *)

Inductive outcome (A : Type) : Type :=
| Done (a : A)
| Raised (e : exn)
| Running.                    (* the iterations looked at are used up *)
Arguments Done {A} a.
Arguments Raised {A} e.
Arguments Running {A}.

Definition M (A : Type) : Type := environment -> world -> outcome A * world.

Definition ret {A} (a : A) : M A := fun _ w => (Done a, w).

Definition bind {A B} (m : M A) (k : A -> M B) : M B :=
  fun env w =>
    match m env w with
    | (Done a, w') => k a env w'
    | (Raised e, w') => (Raised e, w')
    | (Running, w') => (Running, w')
    end.

Declare Scope monad_scope.
Delimit Scope monad_scope with monad.
Notation "x <- m ;; k" := (bind m (fun x => k))
  (at level 61, m at next level, right associativity) : monad_scope.
Notation "m ;; k" := (bind m (fun _ => k))
  (at level 61, right associativity) : monad_scope.
Notation "' pat <- m ;; k" := (bind m (fun x => match x with pat => k end))
  (at level 61, pat pattern, m at next level, right associativity) : monad_scope.
Local Open Scope monad_scope.

Definition raise {A} (e : exn) : M A := fun _ w => (Raised e, w).

Definition lift {A} (r : result A) : M A :=
  match r with
  | Ok a => ret a
  | Raise e => raise e
  end.

(** [sys.exit(message)]. *)
Definition sys_exit {A} (message : string) : M A := raise (SystemExit message).

(** An effect of the main thread. *)
Definition effect (ev : event) : M unit := fun _ w => (Done tt, log ev (poll w)).

Definition print (m : message) : M unit := effect (EvPrint m).

Definition asyncio_sleep (seconds : Z) : M unit := effect (EvSleep seconds).

(** [loop.run_in_executor(None, export_data_to_xlsx_file, data)] with the
    future it returns dropped: the job is queued and the caller goes on. *)
Definition run_in_executor_export (data : list (list pyval)) : M unit :=
  fun env w => (Done tt, set_pool (w_pool w ++ [(env_lag env, data)]) w).

(** [while True: body], looked at for [fuel] iterations. *)
Fixpoint while_true (fuel : nat) (body : M unit) : M unit :=
  match fuel with
  | O => fun _ w => (Running, w)
  | S fuel' => body ;; while_true fuel' body
  end.

(** The connection object; the server state behind it is [w_db]. *)
Inductive connection : Type := Connection.

(** [connection.execute] and [connection.fetch]. *)
Definition query (c : connection) (q : sql) (args : list pyval) : M (list record) :=
  effect (EvSql q args) ;;
  fun _ w =>
    match run_sql q args (w_db w) with
    | Ok (db', records) => (Done records, set_db db' w)
    | Raise e => (Raised e, w)
    end.

(* ===================================================================== *)
(** * The script, function by function *)
(* ===================================================================== *)

(** script.py, lines 14-29. *)
Definition get_cli_args : M (option string * bool) :=
  fun env w => (Done (frequency (env_args env), excel (env_args env)), w).

(** script.py, lines 93-114. *)
Definition parse_weather_data (data : pyval) : M (list (string * pyval)) :=
  temp <- lift (py_getitem data "temp") ;;
  temperature <- lift (py_float temp) ;;
  speed <- lift (py_getitem data "wind_speed") ;;
  wind_speed <- lift (py_float speed) ;;
  pressure_mm <- lift (py_getitem data "pressure_mm") ;;
  pressure <- lift (py_float pressure_mm) ;;
  wind_dir <- lift (py_getitem data "wind_dir") ;;
  let wind_direction := convert_wind_direction wind_dir in
  prec_type <- lift (py_getitem data "prec_type") ;;
  let precipitation_type := convert_precipitation_type prec_type in
  prec_strength <- lift (py_getitem data "prec_strength") ;;
  let precipitation_strength := convert_precipitation_strength prec_strength in
  ret [ ("temperature", PFloat temperature);
        ("wind_direction", wind_direction);
        ("wind_speed", PFloat wind_speed);
        ("pressure", PFloat pressure);
        ("precipitation_type", precipitation_type);
        ("precipitation_strength", precipitation_strength) ].

(** [session.get]: the request goes out and the service answers. *)
Definition session_get (url : string) (params headers : list (string * string))
  : M http_reply :=
  effect (EvGet url params headers) ;;
  fun env w =>
    (Done (env_service env (w_gets w)),
     mkWorld (w_db w) (w_files w) (w_pool w) (S (w_gets w)) (w_trace w)).

(** script.py, lines 117-136. *)
Definition async_get_weather_data (latitude longitude api_key : string)
  : M (list (string * pyval)) :=
  let url := "https://api.weather.yandex.ru/v2/forecast" in
  let params := [("lat", latitude); ("lon", longitude)] in
  let headers := [("X-Yandex-Weather-Key", api_key)] in
  reply <- session_get url params headers ;;
  data <- match reply with
          | GetRaises (AiohttpError cls text) =>
              if is_ClientResponseError cls then
                sys_exit ("Ошибка на стороне сервиса с данными о погоде. Детали: "
                            ++ text)%string
              else raise (AiohttpError cls text)
          | GetRaises e => raise e
          | JsonRaises e => raise e
          | Body data => ret data
          end ;;
  fact <- lift (py_getitem data "fact") ;;
  parsed_data <- parse_weather_data fact ;;
  ret parsed_data.

(** script.py, lines 139-152. *)
Definition async_get_connection : M connection :=
  effect EvConnect ;;
  fun env w =>
    match env_connect env with
    | Some text =>
        (Raised (SystemExit
           ("Ошибка в конфигурации данных БД или расположения файла .env. Детали: "
              ++ text)%string), w)
    | None => (Done Connection, w)
    end.

Definition weather_columns : list column :=
  [Temperature; WindDirection; WindSpeed; Pressure;
   PrecipitationType; PrecipitationStrength].

(** script.py, lines 155-164. *)
Definition async_create_table (c : connection) : M unit :=
  query c CreateTableIfNotExists [] ;; ret tt.

(** script.py, lines 167-176. *)
Definition async_insert_data_into_db (c : connection) (data : list (string * pyval))
  : M unit :=
  let values := dict_values data in
  query c (InsertInto weather_columns) values ;; ret tt.

(** script.py, lines 179-188. *)
Definition async_get_records_count (c : connection) : M Z :=
  records <- query c SelectCount [] ;;
  match map dict_values records with
  | result :: _ =>
      match result with
      | count :: _ => lift (py_int count)
      | [] => raise IndexError
      end
  | [] => raise IndexError
  end.

(** script.py, lines 191-208. *)
Definition async_get_ten_last_records (c : connection) : M (list (list pyval)) :=
  records_count <- async_get_records_count c ;;
  if records_count <? 10 then ret []
  else
    records <- query c (SelectOrderByIdDescLimit weather_columns 10) [] ;;
    ret (map dict_values records).

Definition xlsx_headers : list pyval :=
  [ PStr "Температура"; PStr "Направление ветра"; PStr "Скорость ветра";
    PStr "Атмосферное давление"; PStr "Тип осадков"; PStr "Количество осадков" ].

(** script.py, lines 211-221. *)
Definition async_get_data_for_xlsx_file (c : connection) : M (list (list pyval)) :=
  records <- async_get_ten_last_records c ;;
  match records with
  | [] => ret []
  | _ :: _ => ret ([xlsx_headers] ++ records)
  end.

Definition double_quote : string := String (ascii_of_nat 34) EmptyString.

Definition export_done_notice : string :=
  ("Экспорт данных в файл " ++ double_quote ++ "weather_data.xlsx" ++ double_quote
     ++ " успешно выполнен.")%string.

Definition not_enough_notice : string :=
  "Количество записей в БД меньше 10. Экспорт данных не выполнен.".

Definition usage_error : string :=
  "Для работы скрипта должен быть указан один из флагов: --excel, --frequency <int>".

Definition latitude : string := "55.698538".
Definition longitude : string := "37.359576".
Definition api_key : string := "487492f0-7801-4c1f-8a28-79f65424e32e".

(** script.py, lines 271-275: the body of [while True]. *)
Definition ingestion_cycle (frequency : option string) (c : connection) : M unit :=
  weather_data <- async_get_weather_data latitude longitude api_key ;;
  async_insert_data_into_db c weather_data ;;
  print (Formatted "В БД добавлена новая запись: " weather_data ".") ;;
  minutes <- lift (py_int (match frequency with
                           | Some s => PStr s
                           | None => PNone
                           end)) ;;
  asyncio_sleep (minutes * 60).

(** script.py, lines 243-275.  [fuel] bounds the iterations of the
    ingestion loop that are looked at. *)
Definition main (fuel : nat) : M unit :=
  '(frequency, export_to_xlsx) <- get_cli_args ;;
  (if negb (truthy frequency) && negb export_to_xlsx
   then sys_exit usage_error else ret tt) ;;
  connection <- async_get_connection ;;
  (if export_to_xlsx then
     data_for_xlsx_file <- async_get_data_for_xlsx_file connection ;;
     match data_for_xlsx_file with
     | _ :: _ =>
         run_in_executor_export data_for_xlsx_file ;;
         print (Text export_done_notice)
     | [] => print (Text not_enough_notice)
     end
   else ret tt) ;;
  if truthy frequency then
    async_create_table connection ;;
    while_true fuel (ingestion_cycle frequency connection)
  else ret tt.

(** How the interpreter ends. *)
Inductive stderr_output : Type :=
| Nothing
| Line (s : string)          (* the argument of [sys.exit] *)
| Traceback (e : exn).       (* an exception nobody caught *)

Record termination : Type := mkTermination {
  exit_code : Z;
  stderr : stderr_output
}.

Definition interrupted_notice : string :=
  String (ascii_of_nat 10) "Работа скрипта остановлена.".

(** script.py, lines 278-282: [asyncio.run(main())] under the handler for
    [KeyboardInterrupt].  [asyncio.run] waits for the executor before it
    returns or lets an exception through.  [None]: the loop is still going
    after [fuel] iterations. *)
Definition script (fuel : nat) (env : environment) (w : world)
  : option termination * world :=
  match main fuel env w with
  | (Running, w') => (None, w')
  | (Done _, w') => (Some (mkTermination 0 Nothing), drain w')
  | (Raised KeyboardInterrupt, w') =>
      (Some (mkTermination 1 (Line interrupted_notice)), drain w')
  | (Raised (SystemExit message), w') =>
      (Some (mkTermination 1 (Line message)), drain w')
  | (Raised e, w') => (Some (mkTermination 1 (Traceback e)), drain w')
  end.

(* ===================================================================== *)
(** * Vocabulary of the statements *)
(* ===================================================================== *)










(** A process that is just starting: nothing queued, nothing requested,
    nothing done yet. *)
Definition initial_world (db : database) (fs : files) : world :=
  mkWorld db fs [] 0 [].

(** The response of the end-to-end example. *)
Definition mocked_response : pyval :=
  PDict [ ("temp", PStr "5.5"); ("wind_speed", PStr "3.2");
          ("pressure_mm", PStr "745"); ("wind_dir", PStr "n");
          ("prec_type", PInt 0); ("prec_strength", PInt 0) ].

(** The binary64 number written [3.2]: the one nearest to 32/10. *)
Definition float_3_2 : float := 0x1.999999999999ap+1%float.

(** The values the example expects, in column order. *)
Definition expected_values : list pyval :=
  [ PFloat 5.5; PStr "Северное"; PFloat float_3_2; PFloat 745;
    PStr "Без осадков"; PStr "Без осадков" ].

(** A computation that only computes: its result does not depend on the
    world, which it leaves as it is. *)
Definition effect_free {A} (m : M A) : Prop :=
  exists r, forall env w, m env w = (r, w).

(** The request of the weather fetch, as the trace records it. *)
Definition weather_request : event :=
  EvGet "https://api.weather.yandex.ru/v2/forecast"
        [("lat", latitude); ("lon", longitude)]
        [("X-Yandex-Weather-Key", api_key)].

(** The world once the request has gone out. *)
Definition after_request (w : world) : world :=
  let w' := log weather_request (poll w) in
  mkWorld (w_db w') (w_files w') (w_pool w') (S (w_gets w')) (w_trace w').

(** A computation that comes back, with a value or an exception, whatever
    the world: it holds no loop. *)
Definition returns {A} (m : M A) : Prop :=
  forall env w, fst (m env w) <> Running.

(** The sheet an export call builds from its argument. *)
Definition workbook_of (data : list (list pyval)) : worksheet :=
  ws_bold_A1_F1 (fold_left ws_append data (set_title fresh_workbook "Данные")).



(** The relation as the ingestion branch finds it after [async_create_table]. *)
Definition ensured (db : database) : table :=
  match db with
  | Some t => t
  | None => mkTable [] 1
  end.

(** The row an insert of [values] adds to [t]. *)
Definition inserted_row (t : table) (values : list pyval) : row :=
  bind_columns (mkRow (next_id t) PNone PNone PNone PNone PNone PNone)
               weather_columns values.

(** What was printed, and what was saved where, in the order of the trace. *)
Fixpoint prints (trace : list event) : list message :=
  match trace with
  | [] => []
  | EvPrint m :: rest => m :: prints rest
  | _ :: rest => prints rest
  end.

Fixpoint saves (trace : list event) : list (string * worksheet) :=
  match trace with
  | [] => []
  | EvSave path book :: rest => (path, book) :: saves rest
  | _ :: rest => saves rest
  end.

Definition is_request (ev : event) : bool :=
  match ev with
  | EvGet _ _ _ => true
  | _ => false
  end.

Definition is_save (ev : event) : bool :=
  match ev with
  | EvSave _ _ => true
  | _ => false
  end.

(** Position of the first event of a kind in a trace. *)
Fixpoint index_of (kind : event -> bool) (trace : list event) : option nat :=
  match trace with
  | [] => None
  | ev :: rest =>
      if kind ev then Some O else option_map S (index_of kind rest)
  end.

(** A relation filled by [n] turns of the loop on the example response. *)
Definition sample_row (i : nat) : row :=
  mkRow (Z.of_nat i) (PFloat 5.5) (PStr "Северное") (PFloat float_3_2)
        (PFloat 745) (PStr "Без осадков") (PStr "Без осадков").

Definition sample_table (n : nat) : table :=
  mkTable (map sample_row (seq 1 n)) (Z.of_nat n + 1).

(** A run with both [--excel] and [-f 5], the service answering the
    example response, the export job lagging [lag] effects behind. *)
Definition both_flags (lag : nat) : environment :=
  mkEnv (mkArgs (Some "5") true) None
        (fun _ => Body (PDict [("fact", mocked_response)])) lag.

(** A run with [--excel] alone. *)
Definition export_only (lag : nat) : environment :=
  mkEnv (mkArgs None true) None (fun _ => Body PNone) lag.



(** The record parsed from the example response. *)
Definition expected_record : list (string * pyval) :=
  [ ("temperature", PFloat 5.5);
    ("wind_direction", PStr "Северное");
    ("wind_speed", PFloat float_3_2);
    ("pressure", PFloat 745);
    ("precipitation_type", PStr "Без осадков");
    ("precipitation_strength", PStr "Без осадков") ].


(** A property of the world that [m] keeps. *)
Definition keeps (P : world -> Prop) {A} (m : M A) : Prop :=
  forall env w, P w -> P (snd (m env w)).

(** One more request counted. *)
Definition count_request (w : world) : world :=
  mkWorld (w_db w) (w_files w) (w_pool w) (S (w_gets w)) (w_trace w).




(** No export job anywhere: none queued, none done. *)
Definition no_export (fs : files) (w : world) : Prop :=
  w_pool w = [] /\ saves (w_trace w) = [] /\ w_files w = fs.


(* ===================================================================== *)
(** * Vocabulary of the further statements *)
(* ===================================================================== *)

(** The column types of CREATE TABLE (script.py, lines 160-162). *)
Inductive sql_type : Type :=
| Real
| Varchar (limit : nat).

Definition column_type (c : column) : sql_type :=
  match c with
  | Temperature => Real
  | WindDirection => Varchar 20
  | WindSpeed => Real
  | Pressure => Real
  | PrecipitationType => Varchar 20
  | PrecipitationStrength => Varchar 25
  end.

(** Number of characters of a UTF-8 text: the bytes that do not continue a
    character, those not of the form 10xxxxxx. *)
Fixpoint utf8_length (s : string) : nat :=
  match s with
  | EmptyString => O
  | String c rest =>
      let n := nat_of_ascii c in
      if ((128 <=? n) && (n <? 192))%nat then utf8_length rest
      else S (utf8_length rest)
  end.

(** What the script puts into a column of a type: a number into a REAL
    column; NULL or a text within the limit into a varchar column. *)
Definition fits (ty : sql_type) (v : pyval) : Prop :=
  match ty, v with
  | Real, PFloat _ => True
  | Varchar _, PNone => True
  | Varchar limit, PStr text => (utf8_length text <= limit)%nat
  | _, _ => False
  end.

(** The keys [parse_weather_data] reads. *)
Definition fact_keys : list string :=
  ["temp"; "wind_speed"; "pressure_mm"; "wind_dir"; "prec_type"; "prec_strength"].

(** [db'] holds all that [db] held, in the same order, and maybe more: no
    row was changed or removed and the relation was not dropped. *)
Definition extends (db db' : database) : Prop :=
  match db, db' with
  | None, _ => True
  | Some _, None => False
  | Some t, Some t' => exists more, rows t' = rows t ++ more
  end.

(** The sleeps of a trace, in seconds, and the statements sent. *)
Fixpoint sleeps (trace : list event) : list Z :=
  match trace with
  | [] => []
  | EvSleep seconds :: rest => seconds :: sleeps rest
  | _ :: rest => sleeps rest
  end.

Fixpoint statements (trace : list event) : list sql :=
  match trace with
  | [] => []
  | EvSql q _ :: rest => q :: statements rest
  | _ :: rest => statements rest
  end.

Definition is_select (q : sql) : bool :=
  match q with
  | SelectCount | SelectOrderByIdDescLimit _ _ => true
  | _ => false
  end.

(** The message of a failed connection. *)
Definition connection_error (text : string) : string :=
  ("Ошибка в конфигурации данных БД или расположения файла .env. Детали: "
     ++ text)%string.

(** How the interpreter reports an exception that leaves [main]. *)
Definition report (e : exn) : stderr_output :=
  match e with
  | SystemExit message => Line message
  | KeyboardInterrupt => Line interrupted_notice
  | _ => Traceback e
  end.

(** The exceptions reading a response can raise. *)
Definition is_data_error (e : exn) : bool :=
  match e with
  | KeyError _ | TypeError | ValueError | OverflowError => true
  | _ => false
  end.

(** Every world [m] leads to is related to the one it started from. *)
Definition follows (R : world -> world -> Prop) {A} (m : M A) : Prop :=
  forall env w, R w (snd (m env w)).

(** A request, if it is one, is the request of the weather fetch. *)
Definition only_weather_request (ev : event) : Prop :=
  is_request ev = true -> ev = weather_request.

(** A run whose connection fails: [-f 5], the server refusing. *)
Definition refused_connection : environment :=
  mkEnv (mkArgs (Some "5") false) (Some "connection refused") (fun _ => Body PNone) 0.

(** A run with [-f 5] whose first response has no key [fact]. *)
Definition response_without_fact : environment :=
  mkEnv (mkArgs (Some "5") false) None
        (fun _ => Body (PDict [("info", PDict [])])) 0.

(** From [w] to [w'] nothing was done but reading: the database and the
    count of requests are the same, no sleep was made, the statements sent
    in between are all SELECTs, and what was printed in between are plain
    notices. *)
Definition reads (w w' : world) : Prop :=
  w_db w' = w_db w /\
  w_gets w' = w_gets w /\
  sleeps (w_trace w') = sleeps (w_trace w) /\
  (exists selects,
      statements (w_trace w') = statements (w_trace w) ++ selects /\
      forallb is_select selects = true) /\
  (exists notices,
      prints (w_trace w') = prints (w_trace w) ++ map Text notices).

(** The line a turn of the loop prints about the record it stored. *)
Definition added_notice (record : list (string * pyval)) : message :=
  Formatted "В БД добавлена новая запись: " record ".".

(** The number a frequency argument stands for, as [int] reads it. *)
Definition minutes_of (f : option string) : result Z :=
  py_int (match f with
          | Some s => PStr s
          | None => PNone
          end).


(** A run with [-f 5] alone against a service that always answers the
    example response. *)
Definition healthy_run : environment :=
  mkEnv (mkArgs (Some "5") false) None
        (fun _ => Body (PDict [("fact", mocked_response)])) 0.



(** Two values that Python compares equal as numbers. *)
Definition same_number (v v' : pyval) : Prop :=
  exists q q', py_num v = Some q /\ py_num v' = Some q' /\ Qeq q q'.

(* ===================================================================== *)
(** * Properties of the translators *)
(* ===================================================================== *)












(* ===================================================================== *)
(** * The database *)
(* ===================================================================== *)









(* ===================================================================== *)
(** * The executor and the effects *)
(* ===================================================================== *)

Lemma exports_keep_db (jobs : list (nat * list (list pyval))) (w : world) :
  w_db (fold_left (fun w' job => export_data_to_xlsx_file (snd job) w') jobs w)
  = w_db w.
Proof.
  revert w. induction jobs as [|job jobs IH]; intros w; cbn.
  - reflexivity.
  - now rewrite IH.
Qed.

Lemma poll_keeps_db (w : world) : w_db (poll w) = w_db w.
Proof. unfold poll. now rewrite exports_keep_db. Qed.

Lemma drain_keeps_db (w : world) : w_db (drain w) = w_db w.
Proof. unfold drain. now rewrite exports_keep_db. Qed.

Lemma poll_idle (w : world) : w_pool w = [] -> poll w = w.
Proof. destruct w as [db fs pool gets trace]. cbn. now intros ->. Qed.

Lemma drain_idle (w : world) : w_pool w = [] -> drain w = w.
Proof. destruct w as [db fs pool gets trace]. cbn. now intros ->. Qed.

(** What one statement does to the world. *)
Lemma query_spec (c : connection) (q : sql) (args : list pyval)
      (env : environment) (w : world) :
  query c q args env w =
  match run_sql q args (w_db w) with
  | Ok (db', records) => (Done records, set_db db' (log (EvSql q args) (poll w)))
  | Raise e => (Raised e, log (EvSql q args) (poll w))
  end.
Proof.
  unfold query, bind, effect. cbn [w_db log]. rewrite poll_keeps_db.
  destruct (run_sql q args (w_db w)) as [[db' records]|e]; reflexivity.
Qed.


Lemma w_db_set_db (db : database) (w : world) : w_db (set_db db w) = db.
Proof. reflexivity. Qed.

Lemma w_db_log (ev : event) (w : world) : w_db (log ev w) = w_db w.
Proof. reflexivity. Qed.


(** C6.  Creating the table twice in a row: neither call raises, after the
    first call the relation exists, holding the rows it held before if it
    was there and none otherwise, and the second call leaves that state as
    it is. *)
Theorem create_table_idempotent (env : environment) (w : world) :
  exists w1 w2,
    async_create_table Connection env w = (Done tt, w1) /\
    async_create_table Connection env w1 = (Done tt, w2) /\
    w_db w1 = Some (match w_db w with
                    | Some t => t
                    | None => mkTable [] 1
                    end) /\
    w_db w2 = w_db w1.
Proof.
  unfold async_create_table, bind. rewrite query_spec.
  destruct (w_db w) as [t|]; cbn [run_sql ret];
    eexists; eexists; (split; [reflexivity|]);
    rewrite query_spec, w_db_set_db; cbn [run_sql];
    (split; [reflexivity|]); split; reflexivity.
Qed.



Lemma set_db_same (db : database) (w : world) : w_db w = db -> set_db db w = w.
Proof. destruct w. cbn. now intros ->. Qed.



(* ===================================================================== *)
(** * One ingestion cycle *)
(* ===================================================================== *)

Lemma effect_free_lift {A} (r : result A) : effect_free (lift r).
Proof. destruct r; eexists; intros; reflexivity. Qed.

Lemma effect_free_ret {A} (a : A) : effect_free (ret a).
Proof. eexists; intros; reflexivity. Qed.

Lemma effect_free_bind {A B} (m : M A) (k : A -> M B) :
  effect_free m -> (forall a, effect_free (k a)) -> effect_free (bind m k).
Proof.
  intros [r Hm] Hk. unfold effect_free, bind.
  destruct r as [a | e |].
  - destruct (Hk a) as [r' Hr']. exists r'. intros. now rewrite Hm, Hr'.
  - exists (Raised e). intros. now rewrite Hm.
  - exists Running. intros. now rewrite Hm.
Qed.

(** Parsing reads its argument only: no effect, whatever the world. *)
Lemma parse_weather_data_effect_free (data : pyval) :
  effect_free (parse_weather_data data).
Proof.
  unfold parse_weather_data.
  repeat (apply effect_free_bind; [apply effect_free_lift | intros ?]).
  apply effect_free_ret.
Qed.

Lemma parse_mocked_response (env : environment) (w : world) :
  parse_weather_data mocked_response env w =
  (Done [ ("temperature", PFloat 5.5);
          ("wind_direction", PStr "Северное");
          ("wind_speed", PFloat float_3_2);
          ("pressure", PFloat 745);
          ("precipitation_type", PStr "Без осадков");
          ("precipitation_strength", PStr "Без осадков") ], w).
Proof. vm_compute. reflexivity. Qed.

(** C2.  For the response of the example, parsing and then inserting adds
    to the relation exactly the row (5.5, "Северное", 3.2, 745.0,
    "Без осадков", "Без осадков"): the statement sent names the columns
    temperature, wind_direction, wind_speed, pressure, precipitation_type,
    precipitation_strength and binds the six values to them in that
    order. *)
Theorem ingestion_cycle_inserts_expected_row
        (env : environment) (t : table) (fs : files)
        (pool : list (nat * list (list pyval))) (gets : nat) (trace : list event) :
  let w := mkWorld (Some t) fs pool gets trace in
  exists w',
    (data <- parse_weather_data mocked_response ;;
     async_insert_data_into_db Connection data) env w = (Done tt, w') /\
    w_db w' =
      Some (mkTable
              (rows t ++ [mkRow (next_id t) (PFloat 5.5) (PStr "Северное")
                                (PFloat float_3_2) (PFloat 745)
                                (PStr "Без осадков") (PStr "Без осадков")])
              (next_id t + 1)) /\
    w_trace w' =
      w_trace (poll w) ++
      [EvSql (InsertInto [Temperature; WindDirection; WindSpeed; Pressure;
                          PrecipitationType; PrecipitationStrength])
             expected_values].
Proof.
  intros w. unfold bind at 1. rewrite parse_mocked_response.
  unfold async_insert_data_into_db, bind. rewrite query_spec.
  cbn [w_db w run_sql dict_values map snd List.length weather_columns Nat.eqb ret].
  eexists. split; [reflexivity|]. split; reflexivity.
Qed.

(* ===================================================================== *)
(** * The ingestion loop *)
(* ===================================================================== *)

Lemma exports_keep_gets (jobs : list (nat * list (list pyval))) (w : world) :
  w_gets (fold_left (fun w' job => export_data_to_xlsx_file (snd job) w') jobs w)
  = w_gets w.
Proof.
  revert w. induction jobs as [|job jobs IH]; intros w; cbn.
  - reflexivity.
  - now rewrite IH.
Qed.

Lemma poll_keeps_gets (w : world) : w_gets (poll w) = w_gets w.
Proof. unfold poll. now rewrite exports_keep_gets. Qed.

(** What the fetch does, case by case on the answer of the service. *)
Lemma async_get_weather_data_spec (env : environment) (w : world) :
  async_get_weather_data latitude longitude api_key env w =
  match env_service env (w_gets w) with
  | GetRaises (AiohttpError cls text) =>
      if is_ClientResponseError cls then
        (Raised (SystemExit
           ("Ошибка на стороне сервиса с данными о погоде. Детали: " ++ text)%string),
         after_request w)
      else (Raised (AiohttpError cls text), after_request w)
  | GetRaises e => (Raised e, after_request w)
  | JsonRaises e => (Raised e, after_request w)
  | Body data =>
      match py_getitem data "fact" with
      | Ok fact => (fst (parse_weather_data fact env (after_request w)),
                    after_request w)
      | Raise e => (Raised e, after_request w)
      end
  end.
Proof.
  unfold async_get_weather_data, session_get, bind, effect.
  fold weather_request. change (mkWorld _ _ _ _ _) with (after_request w).
  change (w_gets (log weather_request (poll w))) with (w_gets (poll w)).
  rewrite poll_keeps_gets.
  destruct (env_service env (w_gets w)) as [e | e | data].
  - destruct e; try reflexivity.
    unfold sys_exit, raise. now destruct (is_ClientResponseError cls).
  - reflexivity.
  - cbn [ret]. destruct (py_getitem data "fact") as [fact|e]; cbn [lift ret raise].
    + destruct (parse_weather_data_effect_free fact) as [r Hr].
      rewrite Hr. cbn [fst]. destruct r; reflexivity.
    + reflexivity.
Qed.

Create HintDb returns.

Lemma returns_ret {A} (a : A) : returns (ret a).
Proof. intros env w. discriminate. Qed.

Lemma returns_raise {A} (e : exn) : returns (@raise A e).
Proof. intros env w. discriminate. Qed.

Lemma returns_lift {A} (r : result A) : returns (lift r).
Proof. destruct r; intros env w; discriminate. Qed.

Lemma returns_effect (ev : event) : returns (effect ev).
Proof. intros env w. discriminate. Qed.

Lemma returns_bind {A B} (m : M A) (k : A -> M B) :
  returns m -> (forall a, returns (k a)) -> returns (bind m k).
Proof.
  intros Hm Hk env w. unfold bind. specialize (Hm env w).
  destruct (m env w) as [[a | e |] w']; cbn in *.
  - apply Hk.
  - discriminate.
  - contradiction.
Qed.

Lemma returns_query (c : connection) (q : sql) (args : list pyval) :
  returns (query c q args).
Proof.
  intros env w. rewrite query_spec.
  destruct (run_sql q args (w_db w)) as [[db' records]|e]; discriminate.
Qed.

#[local] Hint Resolve returns_ret returns_raise returns_lift returns_effect
  returns_query : returns.

Ltac returns_steps :=
  repeat match goal with
         | |- returns (bind _ _) => apply returns_bind; [| intros ?]
         | |- returns (match ?x with _ => _ end) => destruct x
         | |- returns (fun _ _ => _) => intros ? ?; cbn; try discriminate
         | |- returns _ => solve [auto with returns]
         end.

Lemma returns_parse_weather_data (data : pyval) : returns (parse_weather_data data).
Proof. unfold parse_weather_data. returns_steps. Qed.

Lemma returns_async_get_weather_data (lat lon key : string) :
  returns (async_get_weather_data lat lon key).
Proof.
  unfold async_get_weather_data, session_get, sys_exit. returns_steps.
  apply returns_parse_weather_data.
Qed.

Lemma returns_async_insert_data_into_db (c : connection) (data : list (string * pyval)) :
  returns (async_insert_data_into_db c data).
Proof. unfold async_insert_data_into_db. returns_steps. Qed.

Lemma returns_async_get_records_count (c : connection) :
  returns (async_get_records_count c).
Proof. unfold async_get_records_count. returns_steps. Qed.

Lemma returns_async_get_ten_last_records (c : connection) :
  returns (async_get_ten_last_records c).
Proof.
  unfold async_get_ten_last_records.
  apply returns_bind; [apply returns_async_get_records_count | intros n].
  returns_steps.
Qed.

Lemma returns_async_get_data_for_xlsx_file (c : connection) :
  returns (async_get_data_for_xlsx_file c).
Proof.
  unfold async_get_data_for_xlsx_file.
  apply returns_bind; [apply returns_async_get_ten_last_records | intros records].
  returns_steps.
Qed.

Lemma returns_async_create_table (c : connection) : returns (async_create_table c).
Proof. unfold async_create_table. returns_steps. Qed.

Lemma returns_async_get_connection : returns async_get_connection.
Proof.
  unfold async_get_connection. apply returns_bind; [auto with returns|].
  intros _ env w. destruct (env_connect env); discriminate.
Qed.

(** One turn of the loop always comes back: only the loop itself runs on. *)
Lemma returns_ingestion_cycle (f : option string) (c : connection) :
  returns (ingestion_cycle f c).
Proof.
  unfold ingestion_cycle, print, asyncio_sleep.
  apply returns_bind; [apply returns_async_get_weather_data | intros data].
  apply returns_bind; [apply returns_async_insert_data_into_db | intros _].
  returns_steps.
Qed.

(** Looking at more iterations continues where fewer ones stopped. *)
Lemma while_true_more (body : M unit) (k n : nat) (env : environment) (w wk : world) :
  returns body ->
  while_true k body env w = (Running, wk) ->
  while_true (k + n) body env w = while_true n body env wk.
Proof.
  intros Hbody. revert w. induction k as [|k IH]; intros w; cbn.
  - now intros [= ->].
  - unfold bind. specialize (Hbody env w).
    destruct (body env w) as [[[] | e |] w1]; cbn in Hbody.
    + apply IH.
    + discriminate.
    + contradiction.
Qed.

Lemma bind_done {A B} (m : M A) (k : A -> M B) (env : environment) (w w1 : world) (a : A) :
  m env w = (Done a, w1) -> bind m k env w = k a env w1.
Proof. intros H. unfold bind. now rewrite H. Qed.

Lemma bind_raised {A B} (m : M A) (k : A -> M B) (env : environment) (w w1 : world)
      (e : exn) :
  m env w = (Raised e, w1) -> bind m k env w = (Raised e, w1).
Proof. intros H. unfold bind. now rewrite H. Qed.

Lemma bind_running_inv {A B} (m : M A) (k : A -> M B) (env : environment)
      (w wk : world) :
  returns m ->
  bind m k env w = (Running, wk) ->
  exists a w1, m env w = (Done a, w1) /\ k a env w1 = (Running, wk).
Proof.
  intros Hm. specialize (Hm env w). unfold bind.
  destruct (m env w) as [[a | e |] w1]; cbn in Hm; intros H.
  - now exists a, w1.
  - discriminate.
  - contradiction.
Qed.

Lemma returns_export_branch (x : bool) (c : connection) :
  returns (if x then
             data_for_xlsx_file <- async_get_data_for_xlsx_file c ;;
             match data_for_xlsx_file with
             | _ :: _ =>
                 run_in_executor_export data_for_xlsx_file ;;
                 print (Text export_done_notice)
             | [] => print (Text not_enough_notice)
             end
           else ret tt).
Proof.
  destruct x; [|auto with returns].
  apply returns_bind; [apply returns_async_get_data_for_xlsx_file | intros data].
  unfold print, run_in_executor_export. returns_steps.
Qed.

Lemma main_more (k n : nat) (env : environment) (w wk : world) :
  main k env w = (Running, wk) ->
  main (k + n) env w
  = while_true n (ingestion_cycle (frequency (env_args env)) Connection) env wk.
Proof.
  unfold main. intros H.
  apply bind_running_inv in H; [|intros ? ?; discriminate].
  destruct H as ([f x] & w0 & Hargs & H).
  rewrite (@bind_done _ _ _ _ _ _ _ _ Hargs).
  injection Hargs as <- <- <-.
  apply bind_running_inv in H;
    [|destruct (_ && _); unfold sys_exit; auto with returns].
  destruct H as ([] & w1 & Hcheck & H). rewrite (@bind_done _ _ _ _ _ _ _ _ Hcheck).
  apply bind_running_inv in H; [|apply returns_async_get_connection].
  destruct H as ([] & w2 & Hconn & H). rewrite (@bind_done _ _ _ _ _ _ _ _ Hconn).
  apply bind_running_inv in H; [|apply returns_export_branch].
  destruct H as ([] & w3 & Hexport & H). rewrite (@bind_done _ _ _ _ _ _ _ _ Hexport).
  destruct (truthy (frequency (env_args env))); [|discriminate].
  apply bind_running_inv in H; [|apply returns_async_create_table].
  destruct H as ([] & w4 & Hcreate & H). rewrite (@bind_done _ _ _ _ _ _ _ _ Hcreate).
  apply while_true_more; [apply returns_ingestion_cycle | exact H].
Qed.

Lemma export_data_to_xlsx_file_spec (data : list (list pyval)) (w : world) :
  export_data_to_xlsx_file data w =
  mkWorld (w_db w) (fs_write "weather_data.xlsx" (workbook_of data) (w_files w))
          (w_pool w) (w_gets w)
          (w_trace w ++ [EvSave "weather_data.xlsx" (workbook_of data)]).
Proof. reflexivity. Qed.

Lemma bind_ret {A B} (a : A) (k : A -> M B) (env : environment) (w : world) :
  bind (ret a) k env w = k a env w.
Proof. reflexivity. Qed.

Lemma async_get_connection_spec (env : environment) (w : world) :
  async_get_connection env w =
  (match env_connect env with
   | Some text =>
       Raised (SystemExit
         ("Ошибка в конфигурации данных БД или расположения файла .env. Детали: "
            ++ text)%string)
   | None => Done Connection
   end, log EvConnect (poll w)).
Proof.
  unfold async_get_connection, bind, effect.
  now destruct (env_connect env).
Qed.

Lemma async_create_table_spec (c : connection) (env : environment) (w : world) :
  async_create_table c env w =
  (Done tt, set_db (Some (ensured (w_db w)))
                   (log (EvSql CreateTableIfNotExists []) (poll w))).
Proof.
  unfold async_create_table, bind. rewrite query_spec.
  now destruct (w_db w).
Qed.

Lemma async_insert_data_into_db_spec (c : connection) (data : list (string * pyval))
      (env : environment) (w : world) (t : table) :
  w_db w = Some t ->
  List.length data = 6%nat ->
  async_insert_data_into_db c data env w =
  (Done tt,
   set_db (Some (mkTable (rows t ++ [inserted_row t (dict_values data)])
                         (next_id t + 1)))
          (log (EvSql (InsertInto weather_columns) (dict_values data)) (poll w))).
Proof.
  intros Hdb Hsix. unfold async_insert_data_into_db, bind. rewrite query_spec, Hdb.
  cbn [run_sql]. unfold dict_values at 1. rewrite length_map, Hsix. reflexivity.
Qed.

Lemma bind_done_inv {A B} (m : M A) (k : A -> M B) (env : environment)
      (w w' : world) (b : B) :
  bind m k env w = (Done b, w') ->
  exists a w1, m env w = (Done a, w1) /\ k a env w1 = (Done b, w').
Proof.
  unfold bind. destruct (m env w) as [[a | e |] w1]; intros H;
    [now exists a, w1 | discriminate | discriminate].
Qed.

(** A parsed record has the six fields. *)
Lemma parse_weather_data_six (data : pyval) (env : environment) (w : world)
      (record : list (string * pyval)) :
  fst (parse_weather_data data env w) = Done record ->
  List.length record = 6%nat.
Proof.
  destruct (parse_weather_data data env w) as [r w'] eqn:Hrun. cbn. intros ->.
  unfold parse_weather_data in Hrun.
  repeat (apply bind_done_inv in Hrun; destruct Hrun as (? & ? & _ & Hrun)).
  injection Hrun as <- _. reflexivity.
Qed.

(* ===================================================================== *)
(** * The orchestrator *)
(* ===================================================================== *)

(** C7.  With neither flag given the process ends at once: the usage
    message goes to standard error, the exit status is 1, and the world is
    as it was when the process started, with nothing in the trace: no
    connection attempted, no request sent, no file written. *)
Theorem no_flag_exits_with_usage_error
        (fuel : nat) (connect : option string) (service : nat -> http_reply)
        (lag : nat) (db : database) (fs : files) :
  let ending := script fuel (mkEnv (mkArgs None false) connect service lag)
                       (initial_world db fs) in
  fst ending = Some (mkTermination 1 (Line usage_error)) /\
  snd ending = initial_world db fs /\
  w_trace (snd ending) = [].
Proof.
  cbv zeta. unfold script, main, bind, get_cli_args. cbn [env_args frequency excel].
  cbn [truthy negb andb sys_exit raise]. cbn [drain initial_world w_pool fold_left].
  repeat split.
Qed.


Lemma exports_trace (jobs : list (nat * list (list pyval))) (w : world) :
  w_trace (fold_left (fun w' job => export_data_to_xlsx_file (snd job) w') jobs w)
  = w_trace w
    ++ map (fun job => EvSave "weather_data.xlsx" (workbook_of (snd job))) jobs.
Proof.
  revert w. induction jobs as [|job jobs IH]; intros w; cbn [fold_left map].
  - now rewrite app_nil_r.
  - rewrite IH, export_data_to_xlsx_file_spec. cbn [w_trace].
    now rewrite <- app_assoc.
Qed.

(** Shutting the executor down adds nothing to the trace but the saves of
    the jobs that were left. *)
Lemma drain_trace (w : world) :
  w_trace (drain w)
  = w_trace w
    ++ map (fun job => EvSave "weather_data.xlsx" (workbook_of (snd job))) (w_pool w).
Proof. unfold drain. now rewrite exports_trace. Qed.

(** The first turn of the loop whose request fails ends [main]. *)
Lemma failing_request_ends_main (env : environment) (w0 wk : world) (k fuel : nat)
      (e : exn) :
  main k env w0 = (Running, wk) ->
  fst (async_get_weather_data latitude longitude api_key env wk) = Raised e ->
  main (k + S fuel) env w0 = (Raised e, after_request wk).
Proof.
  intros Hk Hfetch. rewrite (@main_more k (S fuel) env w0 wk Hk). cbn [while_true].
  assert (Hrun : async_get_weather_data latitude longitude api_key env wk
                 = (Raised e, after_request wk)).
  { rewrite async_get_weather_data_spec in *.
    destruct (env_service env (w_gets wk)) as [e' | e' | data].
    - destruct e'; try (cbn [fst] in Hfetch; now rewrite Hfetch).
      destruct (is_ClientResponseError cls); cbn [fst] in Hfetch; now rewrite Hfetch.
    - cbn [fst] in Hfetch. now rewrite Hfetch.
    - destruct (py_getitem data "fact"); cbn [fst] in Hfetch; now rewrite Hfetch. }
  apply bind_raised. unfold ingestion_cycle. apply bind_raised. exact Hrun.
Qed.











(* ===================================================================== *)
(** * What the ingestion branch leaves alone *)
(* ===================================================================== *)

Section Kept.
Variable P : world -> Prop.
Hypothesis P_poll : forall w, P w -> P (poll w).
Hypothesis P_log : forall ev w, is_save ev = false -> P w -> P (log ev w).
Hypothesis P_db : forall db w, P w -> P (set_db db w).
Hypothesis P_request : forall w, P w -> P (count_request w).

Lemma keeps_ret {A} (a : A) : keeps P (ret a).
Proof. intros env w H. exact H. Qed.

Lemma keeps_raise {A} (e : exn) : keeps P (@raise A e).
Proof. intros env w H. exact H. Qed.

Lemma keeps_lift {A} (r : result A) : keeps P (lift r).
Proof. destruct r; intros env w H; exact H. Qed.

Lemma keeps_bind {A B} (m : M A) (k : A -> M B) :
  keeps P m -> (forall a, keeps P (k a)) -> keeps P (bind m k).
Proof.
  intros Hm Hk env w H. unfold bind. specialize (Hm env w H).
  destruct (m env w) as [[a | e |] w']; cbn [snd] in *.
  - now apply Hk.
  - exact Hm.
  - exact Hm.
Qed.

Lemma keeps_effect (ev : event) : is_save ev = false -> keeps P (effect ev).
Proof. intros Hev env w H. cbn. now apply P_log, P_poll. Qed.

Lemma keeps_query (c : connection) (q : sql) (args : list pyval) :
  keeps P (query c q args).
Proof.
  intros env w H. rewrite query_spec.
  assert (Hlog : P (log (EvSql q args) (poll w))) by now apply P_log, P_poll.
  destruct (run_sql q args (w_db w)) as [[db' records]|e]; cbn [snd].
  - now apply P_db.
  - exact Hlog.
Qed.

Lemma keeps_effect_free {A} (m : M A) : effect_free m -> keeps P m.
Proof. intros [r Hr] env w H. now rewrite Hr. Qed.

Lemma keeps_async_get_weather_data :
  keeps P (async_get_weather_data latitude longitude api_key).
Proof.
  intros env w H. rewrite async_get_weather_data_spec.
  assert (Hafter : P (after_request w)).
  { change (P (count_request (log weather_request (poll w)))).
    apply P_request, P_log; [reflexivity | now apply P_poll]. }
  destruct (env_service env (w_gets w)) as [e | e | data].
  - destruct e; try exact Hafter. now destruct (is_ClientResponseError cls).
  - exact Hafter.
  - now destruct (py_getitem data "fact").
Qed.

Lemma keeps_ingestion_cycle (f : option string) (c : connection) :
  keeps P (ingestion_cycle f c).
Proof.
  unfold ingestion_cycle, async_insert_data_into_db, print, asyncio_sleep.
  apply keeps_bind; [apply keeps_async_get_weather_data | intros data].
  apply keeps_bind.
  { apply keeps_bind; [apply keeps_query | intros _; apply keeps_ret]. }
  intros _. apply keeps_bind; [now apply keeps_effect | intros _].
  apply keeps_bind; [apply keeps_lift | intros minutes].
  now apply keeps_effect.
Qed.

Lemma keeps_while_true (fuel : nat) (body : M unit) :
  keeps P body -> keeps P (while_true fuel body).
Proof.
  intros Hbody. induction fuel as [|fuel IH]; cbn [while_true].
  - intros env w H. exact H.
  - apply keeps_bind; [exact Hbody | intros _; exact IH].
Qed.

(** The whole ingestion branch. *)
Lemma keeps_ingestion_branch (fuel : nat) (f : option string) (c : connection) :
  keeps P (if truthy f
           then async_create_table c ;; while_true fuel (ingestion_cycle f c)
           else ret tt).
Proof.
  destruct (truthy f); [|apply keeps_ret].
  apply keeps_bind.
  - unfold async_create_table.
    apply keeps_bind; [apply keeps_query | intros _; apply keeps_ret].
  - intros _. apply keeps_while_true, keeps_ingestion_cycle.
Qed.
End Kept.

Lemma saves_app (l l' : list event) : saves (l ++ l') = saves l ++ saves l'.
Proof.
  induction l as [|ev l IH]; cbn; [reflexivity|].
  destruct ev; cbn; now rewrite IH.
Qed.

Lemma prints_app (l l' : list event) : prints (l ++ l') = prints l ++ prints l'.
Proof.
  induction l as [|ev l IH]; cbn; [reflexivity|].
  destruct ev; cbn; now rewrite IH.
Qed.

Lemma saves_other (ev : event) : is_save ev = false -> saves [ev] = [].
Proof. destruct ev; cbn; congruence. Qed.

Lemma poll_trace (w : world) :
  w_trace (poll w)
  = w_trace w
    ++ map (fun job => EvSave "weather_data.xlsx" (workbook_of (snd job)))
           (filter due (w_pool w)).
Proof. unfold poll. now rewrite exports_trace. Qed.

Lemma prints_of_saves (jobs : list (nat * list (list pyval))) :
  prints (map (fun job => EvSave "weather_data.xlsx" (workbook_of (snd job))) jobs) = [].
Proof. induction jobs as [|job jobs IH]; cbn; [reflexivity | exact IH]. Qed.


(** The three properties the ingestion branch keeps. *)
Lemma no_export_kept (fs : files) (fuel : nat) (f : option string) (c : connection) :
  keeps (no_export fs)
        (if truthy f
         then async_create_table c ;; while_true fuel (ingestion_cycle f c)
         else ret tt).
Proof.
  apply keeps_ingestion_branch; unfold no_export.
  - intros w (Hpool & Hsaves & Hfiles). now rewrite (poll_idle _ Hpool).
  - intros ev w Hev (Hpool & Hsaves & Hfiles). cbn [log w_pool w_trace w_files].
    now rewrite saves_app, Hsaves, (saves_other _ Hev).
  - intros db w H. exact H.
  - intros w H. exact H.
Qed.





Lemma drain_no_export (fs : files) (w : world) :
  no_export fs w -> no_export fs (drain w).
Proof. intros H. destruct H as (Hpool & Hrest). now rewrite (drain_idle _ Hpool). Qed.


(** How the process ends, by how [main] ends. *)
Lemma script_cases (fuel : nat) (env : environment) (w : world) :
  (fst (main fuel env w) = Running /\
   script fuel env w = (None, snd (main fuel env w))) \/
  (exists ending,
      script fuel env w = (Some ending, drain (snd (main fuel env w)))).
Proof.
  unfold script. destruct (main fuel env w) as [[[] | e |] w']; cbn [fst snd].
  - right. eauto.
  - right. destruct e; eauto.
  - left. auto.
Qed.




(* ===================================================================== *)
(** * Export and ingestion in one run *)
(* ===================================================================== *)

(** With a short lag the export job is done before the loop sends its
    first request. *)
Lemma export_job_done_before_first_request :
  let trace := w_trace (snd (script 1 (both_flags 2)
                                    (initial_world (Some (sample_table 10)) []))) in
  index_of is_save trace = Some 5%nat /\ index_of is_request trace = Some 6%nat.
Proof. vm_compute. split; reflexivity. Qed.

(** C9 fails on the code.  With [--excel] and [-f 5], ten rows stored and
    the export job three effects behind the main thread, the first request
    of the ingestion loop goes out before the workbook is saved: the job is
    handed to the executor and never awaited. *)
Theorem export_job_can_finish_after_first_request :
  let trace := w_trace (snd (script 1 (both_flags 3)
                                    (initial_world (Some (sample_table 10)) []))) in
  index_of is_request trace = Some 5%nat /\ index_of is_save trace = Some 6%nat.
Proof. vm_compute. split; reflexivity. Qed.

(* ===================================================================== *)
(** * Export before the table was ever created *)
(* ===================================================================== *)



(* ===================================================================== *)
(** * The theorems at work on concrete runs *)
(* ===================================================================== *)








(* ===================================================================== *)
(** * Further properties: records and the schema *)
(* ===================================================================== *)

Lemma py_match_label (v : pyval) (cases : list (literal * string)) :
  py_match v cases = PNone \/
  exists label, py_match v cases = PStr label /\ In label (map snd cases).
Proof.
  induction cases as [|[l label] rest IH]; cbn.
  - now left.
  - destruct (py_eq v l).
    + right. exists label. auto.
    + destruct IH as [IH | [label' [IH Hin]]]; [now left|].
      right. exists label'. auto.
Qed.

Lemma py_match_fits (v : pyval) (cases : list (literal * string)) (limit : nat) :
  Forall (fun label => (utf8_length label <= limit)%nat) (map snd cases) ->
  fits (Varchar limit) (py_match v cases).
Proof.
  intros Hall. destruct (py_match_label v cases) as [-> | [label [-> Hin]]]; cbn.
  - exact I.
  - rewrite Forall_forall in Hall. now apply Hall.
Qed.

Lemma lift_done {A} (r : result A) (env : environment) (w w' : world) (a : A) :
  lift r env w = (Done a, w') -> r = Ok a /\ w' = w.
Proof. destruct r; cbn; intros [= <- <-]; auto. Qed.

(** X1.  A record that parsing returns has the six keys named like the
    columns of the INSERT statement and in their order, so that binding by
    position puts every value into the column of its name; the values of
    the REAL columns are floats, those of the varchar columns are NULL or a
    label within the limit of the column; and the response held all six
    keys that parsing reads. *)
Theorem parsed_record_fits_schema (data : pyval) (env : environment) (w : world)
        (record : list (string * pyval)) :
  fst (parse_weather_data data env w) = Done record ->
  map fst record = map column_name weather_columns /\
  Forall2 fits (map column_type weather_columns) (dict_values record) /\
  (forall key, In key fact_keys -> exists v, py_getitem data key = Ok v).
Proof.
  destruct (parse_weather_data data env w) as [r w'] eqn:Hrun. cbn [fst].
  intros ->. unfold parse_weather_data in Hrun.
  repeat match type of Hrun with
         | bind _ _ _ _ = _ =>
             apply bind_done_inv in Hrun;
             let a := fresh "a" in
             let wa := fresh "wa" in
             let Ha := fresh "Ha" in
             destruct Hrun as (a & wa & Ha & Hrun);
             apply lift_done in Ha; destruct Ha as [Ha ->]
         end.
  injection Hrun as <- _.
  split; [reflexivity|]. split.
  - cbn [map weather_columns column_type dict_values snd].
    repeat (apply Forall2_cons;
            [ first [ exact I
                    | apply py_match_fits; vm_compute;
                      repeat (apply Forall_cons; [lia|]); apply Forall_nil ] | ]).
    apply Forall2_nil.
  - intros key Hin. cbn in Hin.
    repeat (destruct Hin as [<- | Hin]; [eauto|]). contradiction.
Qed.

Lemma example_record_fits_schema :
  map fst expected_record = map column_name weather_columns /\
  Forall2 fits (map column_type weather_columns) (dict_values expected_record).
Proof.
  assert (H : fst (parse_weather_data mocked_response healthy_run (initial_world None []))
              = Done expected_record) by (vm_compute; reflexivity).
  destruct (@parsed_record_fits_schema mocked_response healthy_run
              (initial_world None []) expected_record H) as (Hnames & Hfits & _).
  split; assumption.
Defined.

(* ===================================================================== *)
(** * Further properties: the database *)
(* ===================================================================== *)





(* ===================================================================== *)
(** * Further properties: every run is made of the same few steps *)
(* ===================================================================== *)

Section Steps.
Variable R : world -> world -> Prop.
Hypothesis R_refl : forall w, R w w.
Hypothesis R_trans : forall a b c, R a b -> R b c -> R a c.
Hypothesis R_poll : forall w, R w (poll w).
Hypothesis R_drain : forall w, R w (drain w).
Hypothesis R_log :
  forall ev w, is_save ev = false -> only_weather_request ev -> R w (log ev w).
Hypothesis R_db :
  forall q args db' records w,
    run_sql q args (w_db w) = Ok (db', records) -> R w (set_db db' w).
Hypothesis R_request : forall w, R w (count_request w).
Hypothesis R_submit : forall job w, R w (set_pool (w_pool w ++ [job]) w).

Lemma follows_ret {A} (a : A) : follows R (ret a).
Proof. intros env w. apply R_refl. Qed.

Lemma follows_raise {A} (e : exn) : follows R (@raise A e).
Proof. intros env w. apply R_refl. Qed.

Lemma follows_lift {A} (r : result A) : follows R (lift r).
Proof. destruct r; intros env w; apply R_refl. Qed.

Lemma follows_bind {A B} (m : M A) (k : A -> M B) :
  follows R m -> (forall a, follows R (k a)) -> follows R (bind m k).
Proof.
  intros Hm Hk env w. unfold bind. specialize (Hm env w).
  destruct (m env w) as [[a | e |] w']; cbn [snd] in *; try exact Hm.
  eapply R_trans; [exact Hm | apply Hk].
Qed.

Lemma follows_effect (ev : event) :
  is_save ev = false -> only_weather_request ev -> follows R (effect ev).
Proof.
  intros Hsave Hreq env w. cbn [effect snd].
  apply R_trans with (b := poll w); [apply R_poll | now apply R_log].
Qed.

Lemma follows_query (c : connection) (q : sql) (args : list pyval) :
  follows R (query c q args).
Proof.
  intros env w. rewrite query_spec.
  assert (Hlog : R w (log (EvSql q args) (poll w))).
  { apply R_trans with (b := poll w);
      [apply R_poll | apply R_log; [reflexivity | discriminate]]. }
  destruct (run_sql q args (w_db w)) as [[db' records]|e] eqn:Hrun; cbn [snd].
  - eapply R_trans; [exact Hlog|]. apply R_db with (q := q) (args := args) (records := records).
    now rewrite w_db_log, poll_keeps_db.
  - exact Hlog.
Qed.

Lemma follows_async_get_weather_data :
  follows R (async_get_weather_data latitude longitude api_key).
Proof.
  intros env w. rewrite async_get_weather_data_spec.
  assert (Hafter : R w (after_request w)).
  { change (after_request w) with (count_request (log weather_request (poll w))).
    apply R_trans with (b := poll w); [apply R_poll|].
    apply R_trans with (b := log weather_request (poll w));
      [apply R_log; [reflexivity | intros _; reflexivity] | apply R_request]. }
  destruct (env_service env (w_gets w)) as [e | e | data].
  - destruct e; try exact Hafter. now destruct (is_ClientResponseError cls).
  - exact Hafter.
  - now destruct (py_getitem data "fact").
Qed.

Lemma follows_async_get_connection : follows R async_get_connection.
Proof.
  intros env w. rewrite async_get_connection_spec. cbn [snd].
  apply R_trans with (b := poll w);
    [apply R_poll | apply R_log; [reflexivity | discriminate]].
Qed.

Lemma follows_run_in_executor_export (data : list (list pyval)) :
  follows R (run_in_executor_export data).
Proof. intros env w. apply R_submit. Qed.

Ltac follows_steps :=
  repeat match goal with
         | |- follows R (bind _ _) => apply follows_bind; [| intros ?]
         | |- follows R (match ?x with _ => _ end) => destruct x
         | |- follows R (ret _) => apply follows_ret
         | |- follows R (raise _) => apply follows_raise
         | |- follows R (sys_exit _) => apply follows_raise
         | |- follows R (lift _) => apply follows_lift
         | |- follows R (query _ _ _) => apply follows_query
         | |- follows R (effect _) =>
             apply follows_effect; [reflexivity | discriminate]
         | |- follows R (print _) =>
             apply follows_effect; [reflexivity | discriminate]
         | |- follows R (asyncio_sleep _) =>
             apply follows_effect; [reflexivity | discriminate]
         | |- follows R (run_in_executor_export _) =>
             apply follows_run_in_executor_export
         | |- follows R async_get_connection => apply follows_async_get_connection
         | |- follows R (async_get_weather_data _ _ _) =>
             apply follows_async_get_weather_data
         end.

Lemma follows_while_true (fuel : nat) (body : M unit) :
  follows R body -> follows R (while_true fuel body).
Proof.
  intros Hbody. induction fuel as [|fuel IH]; cbn [while_true].
  - intros env w. apply R_refl.
  - apply follows_bind; [exact Hbody | intros _; exact IH].
Qed.

Lemma follows_main (fuel : nat) : follows R (main fuel).
Proof.
  unfold main, get_cli_args.
  apply follows_bind; [intros env w; apply R_refl | intros [f x]].
  apply follows_bind; [destruct (_ && _); follows_steps | intros _].
  apply follows_bind; [follows_steps | intros c].
  apply follows_bind.
  - destruct x; [|follows_steps].
    unfold async_get_data_for_xlsx_file, async_get_ten_last_records,
      async_get_records_count.
    follows_steps.
  - intros _. destruct (truthy f); [|follows_steps].
    apply follows_bind; [unfold async_create_table; follows_steps | intros _].
    apply follows_while_true.
    unfold ingestion_cycle, async_insert_data_into_db. follows_steps.
Qed.

(** The whole process, shutting down of the executor included. *)
Lemma follows_script (fuel : nat) (env : environment) (w : world) :
  R w (snd (script fuel env w)).
Proof.
  pose proof (follows_main fuel env w) as Hmain.
  destruct (script_cases fuel env w) as [[_ Heq] | [ending Heq]];
    rewrite Heq; cbn [snd]; [exact Hmain|].
  eapply R_trans; [exact Hmain | apply R_drain].
Qed.
End Steps.

Lemma extends_refl (db : database) : extends db db.
Proof. destruct db as [t|]; cbn; [|exact I]. exists []. now rewrite app_nil_r. Qed.

Lemma extends_trans (a b c : database) : extends a b -> extends b c -> extends a c.
Proof.
  destruct a as [ta|], b as [tb|], c as [tc|]; cbn; try tauto.
  intros [m1 H1] [m2 H2]. exists (m1 ++ m2). now rewrite H2, H1, app_assoc.
Qed.

(** No statement of the script removes or changes what is stored. *)
Lemma run_sql_extends (q : sql) (args : list pyval) (db db' : database)
      (records : list record) :
  run_sql q args db = Ok (db', records) -> extends db db'.
Proof.
  destruct q, db as [t|]; cbn [run_sql]; try discriminate;
    try (intros [= <- _]; apply extends_refl).
  - intros [= <- _]. exact I.
  - destruct (Nat.eqb _ _); [|discriminate]. intros [= <- _]. cbn. eauto.
Qed.

(** X3.  The table is append-only: whatever the flags, the answers of the
    service and the point at which the process is looked at, the relation as
    any run leaves it holds every row it held at the start, unchanged and in
    the same order; no run drops the relation. *)
Theorem database_only_grows (fuel : nat) (env : environment) (w : world) :
  extends (w_db w) (w_db (snd (script fuel env w))).
Proof.
  apply (@follows_script (fun a b => extends (w_db a) (w_db b))).
  - intros a. apply extends_refl.
  - intros a b c. apply extends_trans.
  - intros a. rewrite poll_keeps_db. apply extends_refl.
  - intros a. rewrite drain_keeps_db. apply extends_refl.
  - intros ev a _ _. apply extends_refl.
  - intros q args db' records a Hrun. cbn [set_db w_db].
    exact (@run_sql_extends q args (w_db a) db' records Hrun).
  - intros a. apply extends_refl.
  - intros job a. apply extends_refl.
Qed.

Lemma fs_read_write_other (p path : string) (book : worksheet) (fs : files) :
  p <> path -> fs_read p (fs_write path book fs) = fs_read p fs.
Proof.
  intros Hp. unfold fs_write. cbn [fs_read].
  destruct (String.eqb_spec path p) as [Heq|_]; [now subst|].
  induction fs as [|[q b] fs IH]; cbn [filter fs_read fst]; [reflexivity|].
  destruct (String.eqb_spec q path) as [->|Hq]; cbn [negb fs_read].
  - destruct (String.eqb_spec path p); [congruence | exact IH].
  - now rewrite IH.
Qed.

Lemma exports_keep_other_files (p : string) (jobs : list (nat * list (list pyval)))
      (w : world) :
  p <> "weather_data.xlsx" ->
  fs_read p (w_files (fold_left (fun w' job => export_data_to_xlsx_file (snd job) w')
                                jobs w))
  = fs_read p (w_files w).
Proof.
  intros Hp. revert w. induction jobs as [|job jobs IH]; intros w; cbn [fold_left].
  - reflexivity.
  - rewrite IH, export_data_to_xlsx_file_spec. cbn [w_files].
    now apply fs_read_write_other.
Qed.

(** X4.  No run touches a file other than [weather_data.xlsx]: every other
    path reads after the run as it read before. *)
Theorem other_files_untouched (fuel : nat) (env : environment) (w : world)
        (p : string) :
  p <> "weather_data.xlsx" ->
  fs_read p (w_files (snd (script fuel env w))) = fs_read p (w_files w).
Proof.
  intros Hp.
  apply (@follows_script
           (fun a b => fs_read p (w_files b) = fs_read p (w_files a))).
  - reflexivity.
  - intros a b c Hab Hbc. now rewrite Hbc.
  - intros a. unfold poll. now rewrite exports_keep_other_files.
  - intros a. unfold drain. now rewrite exports_keep_other_files.
  - reflexivity.
  - reflexivity.
  - reflexivity.
  - reflexivity.
Qed.

Lemma notes_file_untouched :
  fs_read "notes.xlsx"
    (w_files (snd (script 2 (both_flags 0)
                     (initial_world (Some (sample_table 12))
                                    [("notes.xlsx", fresh_workbook)]))))
  = Some fresh_workbook.
Proof.
  apply (@other_files_untouched 2 (both_flags 0)
           (initial_world (Some (sample_table 12)) [("notes.xlsx", fresh_workbook)])
           "notes.xlsx").
  discriminate.
Defined.

Lemma saves_are_no_requests (jobs : list (nat * list (list pyval))) :
  Forall only_weather_request
         (map (fun job => EvSave "weather_data.xlsx" (workbook_of (snd job))) jobs).
Proof.
  induction jobs as [|job jobs IH]; cbn [map]; constructor; [discriminate | exact IH].
Qed.

(** X5.  The one request any run ever sends is the GET of the forecast for
    the fixed coordinates with the key in its header: every request in the
    trace of a process is that request. *)
Theorem every_request_is_the_forecast_request
        (fuel : nat) (env : environment) (db : database) (fs : files) :
  Forall only_weather_request
         (w_trace (snd (script fuel env (initial_world db fs)))).
Proof.
  apply (@follows_script
           (fun a b => Forall only_weather_request (w_trace a) ->
                       Forall only_weather_request (w_trace b))).
  - auto.
  - auto.
  - intros a H. rewrite poll_trace. apply Forall_app. split; [exact H|].
    apply saves_are_no_requests.
  - intros a H. rewrite drain_trace. apply Forall_app. split; [exact H|].
    apply saves_are_no_requests.
  - intros ev a _ Hev H. cbn [log w_trace]. apply Forall_app. split; [exact H|].
    now constructor.
  - auto.
  - auto.
  - auto.
  - constructor.
Qed.

(* ===================================================================== *)
(** * Further properties: how runs end *)
(* ===================================================================== *)

(** X6.  If the connection cannot be made, whichever flag is given, the
    process ends at once on the message of the script with the text of the
    error, status 1: the attempt to connect is all that happened; no
    statement was sent, no request made, no file written. *)
Theorem connection_failure_exits
        (fuel : nat) (env : environment) (db : database) (fs : files)
        (text : string) :
  env_connect env = Some text ->
  truthy (frequency (env_args env)) = true \/ excel (env_args env) = true ->
  script fuel env (initial_world db fs)
  = (Some (mkTermination 1 (Line (connection_error text))),
     mkWorld db fs [] 0 [EvConnect]).
Proof.
  intros Hconn Hflag. unfold script, main.
  unfold bind at 1. unfold get_cli_args. cbv beta iota.
  assert (Hcheck : negb (truthy (frequency (env_args env)))
                   && negb (excel (env_args env)) = false).
  { destruct Hflag as [-> | ->]; [reflexivity | apply andb_false_r]. }
  rewrite Hcheck, bind_ret.
  unfold bind at 1. rewrite async_get_connection_spec, Hconn.
  reflexivity.
Qed.

Lemma refused_connection_run :
  script 3 refused_connection (initial_world None [])
  = (Some (mkTermination 1 (Line (connection_error "connection refused"))),
     mkWorld None [] [] 0 [EvConnect]).
Proof.
  apply (@connection_failure_exits 3 refused_connection None [] "connection refused"
           eq_refl).
  left. reflexivity.
Defined.

Lemma py_getitem_raises (v : pyval) (key : string) (e : exn) :
  py_getitem v key = Raise e -> is_data_error e = true.
Proof.
  destruct v; cbn; try (intros [= <-]; reflexivity).
  destruct (dict_get d key); [discriminate | intros [= <-]; reflexivity].
Qed.

Lemma py_float_of_str_raises (s : string) (e : exn) :
  py_float_of_str s = Raise e -> e = ValueError.
Proof.
  unfold py_float_of_str.
  destruct (drop_underscores None (strip (list_ascii_of_string s))) as [body|];
    [|congruence].
  destruct (read_sign body) as [negative unsigned].
  destruct (_ || _); [discriminate|].
  destruct (String.eqb _ "nan"); [discriminate|].
  destruct (read_digits 0 0 unsigned) as [[int_part int_len] after_int].
  destruct (match after_int with
            | "."%char :: frac => read_digits int_part 0 frac
            | _ => (int_part, O, after_int)
            end) as [[mantissa frac_len] after_frac].
  destruct (int_len + frac_len)%nat; [congruence|].
  destruct (read_exponent after_frac); congruence.
Qed.

Lemma py_float_raises (v : pyval) (e : exn) :
  py_float v = Raise e -> is_data_error e = true.
Proof.
  destruct v as [| b | z | f | s | l | d]; cbn [py_float];
    try (intros [= <-]; reflexivity); try discriminate.
  - destruct (binary_normalize prec emax z 0 false); try discriminate.
    intros [= <-]. reflexivity.
  - intros H. now rewrite (@py_float_of_str_raises s e H).
Qed.

Lemma bind_raised_inv {A B} (m : M A) (k : A -> M B) (env : environment)
      (w w' : world) (e : exn) :
  bind m k env w = (Raised e, w') ->
  m env w = (Raised e, w') \/
  exists a w1, m env w = (Done a, w1) /\ k a env w1 = (Raised e, w').
Proof.
  unfold bind. destruct (m env w) as [[a | e' |] w1]; intros H.
  - right. now exists a, w1.
  - left. now injection H as -> ->.
  - discriminate.
Qed.

Lemma lift_raised {A} (r : result A) (env : environment) (w w' : world) (e : exn) :
  lift r env w = (Raised e, w') -> r = Raise e.
Proof. destruct r; cbn; [discriminate | now intros [= <- _]]. Qed.

(** Parsing fails on the data only: a missing key, a value of the wrong
    type, a text that is no number, an integer too large. *)
Lemma parse_weather_data_raises (data : pyval) (env : environment) (w : world)
      (e : exn) :
  fst (parse_weather_data data env w) = Raised e -> is_data_error e = true.
Proof.
  destruct (parse_weather_data data env w) as [r w'] eqn:Hrun. cbn [fst].
  intros ->. unfold parse_weather_data in Hrun.
  repeat match type of Hrun with
         | bind (lift _) _ _ _ = _ =>
             apply bind_raised_inv in Hrun;
             destruct Hrun as [Hrun | (? & ? & Hdone & Hrun)];
             [ apply lift_raised in Hrun;
               first [ exact (@py_getitem_raises _ _ _ Hrun)
                     | exact (@py_float_raises _ _ Hrun) ]
             | apply lift_done in Hdone; destruct Hdone as [_ ->] ]
         end.
  discriminate Hrun.
Qed.

Lemma statements_app (l l' : list event) :
  statements (l ++ l') = statements l ++ statements l'.
Proof.
  induction l as [|ev l IH]; cbn; [reflexivity|].
  destruct ev; cbn; now rewrite IH.
Qed.

Lemma sleeps_app (l l' : list event) : sleeps (l ++ l') = sleeps l ++ sleeps l'.
Proof.
  induction l as [|ev l IH]; cbn; [reflexivity|].
  destruct ev; cbn; now rewrite IH.
Qed.

Lemma statements_of_saves (jobs : list (nat * list (list pyval))) :
  statements (map (fun job => EvSave "weather_data.xlsx" (workbook_of (snd job))) jobs)
  = [].
Proof. induction jobs as [|job jobs IH]; cbn; [reflexivity | exact IH]. Qed.

Lemma sleeps_of_saves (jobs : list (nat * list (list pyval))) :
  sleeps (map (fun job => EvSave "weather_data.xlsx" (workbook_of (snd job))) jobs)
  = [].
Proof. induction jobs as [|job jobs IH]; cbn; [reflexivity | exact IH]. Qed.

Lemma data_error_report (e : exn) : is_data_error e = true -> report e = Traceback e.
Proof. destruct e; cbn; congruence. Qed.

(** X7.  A turn of the loop whose fetch fails, for whatever reason, is the
    last: the process ends with status 1, reporting the exception, and
    after the failed request no statement is sent and no sleep made, so the
    relation is as the turn found it.  When a response did arrive, the
    failure is one of the data (a missing key, a wrong type, a text that is
    no number, an integer too large) and the report is its traceback:
    nothing guards the shape of the response. *)
Theorem failed_fetch_ends_process
        (env : environment) (db : database) (fs : files) (k fuel : nat)
        (wk : world) (e : exn) :
  main k env (initial_world db fs) = (Running, wk) ->
  fst (async_get_weather_data latitude longitude api_key env wk) = Raised e ->
  let ending := script (k + S fuel) env (initial_world db fs) in
  fst ending = Some (mkTermination 1 (report e)) /\
  w_db (snd ending) = w_db wk /\
  statements (w_trace (snd ending)) = statements (w_trace wk) /\
  sleeps (w_trace (snd ending)) = sleeps (w_trace wk) /\
  (forall data, env_service env (w_gets wk) = Body data ->
                is_data_error e = true /\ report e = Traceback e).
Proof.
  intros Hk Hfetch ending.
  pose proof (@failing_request_ends_main env (initial_world db fs) wk k fuel e
                Hk Hfetch) as Hmain.
  assert (Hending : ending = (Some (mkTermination 1 (report e)),
                              drain (after_request wk))).
  { unfold ending, script. rewrite Hmain. now destruct e. }
  rewrite Hending. cbn [fst snd]. split; [reflexivity|].
  split; [|split; [|split]].
  - rewrite drain_keeps_db. cbn [after_request w_db log]. apply poll_keeps_db.
  - rewrite drain_trace. cbn [after_request w_trace w_pool log].
    rewrite !statements_app, poll_trace, statements_app, !statements_of_saves.
    cbn. now rewrite !app_nil_r.
  - rewrite drain_trace. cbn [after_request w_trace w_pool log].
    rewrite !sleeps_app, poll_trace, sleeps_app, !sleeps_of_saves.
    cbn. now rewrite !app_nil_r.
  - intros data Hbody. rewrite async_get_weather_data_spec, Hbody in Hfetch.
    assert (Herror : is_data_error e = true).
    { destruct (py_getitem data "fact") as [fact|e'] eqn:Hfact; cbn [fst] in Hfetch.
      - exact (@parse_weather_data_raises fact env (after_request wk) e Hfetch).
      - injection Hfetch as <-. exact (@py_getitem_raises data "fact" e' Hfact). }
    split; [exact Herror | now apply data_error_report].
Qed.

Lemma response_without_fact_run :
  fst (script (0 + 1) response_without_fact (initial_world None []))
  = Some (mkTermination 1 (report (KeyError "fact"))).
Proof.
  apply (@failed_fetch_ends_process
           response_without_fact None [] 0 0
           (mkWorld (Some (mkTable [] 1)) [] [] 0
                    [EvConnect; EvSql CreateTableIfNotExists []])
           (KeyError "fact") eq_refl eq_refl).
Defined.

(* ===================================================================== *)
(** * Further properties: the export branch only reads *)
(* ===================================================================== *)

Lemma reads_refl (w : world) : reads w w.
Proof.
  split; [reflexivity|]. split; [reflexivity|]. split; [reflexivity|].
  split; exists []; cbn; now rewrite app_nil_r.
Qed.

Lemma reads_trans (a b c : world) : reads a b -> reads b c -> reads a c.
Proof.
  intros (Hdb1 & Hg1 & Hs1 & (sel1 & Hq1 & Hsel1) & (out1 & Hout1))
         (Hdb2 & Hg2 & Hs2 & (sel2 & Hq2 & Hsel2) & (out2 & Hout2)).
  split; [congruence|]. split; [congruence|]. split; [congruence|].
  split.
  - exists (sel1 ++ sel2). split.
    + now rewrite Hq2, Hq1, app_assoc.
    + now rewrite forallb_app, Hsel1, Hsel2.
  - exists (out1 ++ out2). now rewrite Hout2, Hout1, map_app, app_assoc.
Qed.

(** A world that differs in finished export jobs only. *)
Lemma reads_saves (w w' : world) (jobs : list (nat * list (list pyval))) :
  w_db w' = w_db w ->
  w_gets w' = w_gets w ->
  w_trace w'
  = w_trace w ++ map (fun job => EvSave "weather_data.xlsx" (workbook_of (snd job))) jobs ->
  reads w w'.
Proof.
  intros Hdb Hgets Htrace.
  split; [exact Hdb|]. split; [exact Hgets|].
  rewrite Htrace, sleeps_app, statements_app, prints_app, sleeps_of_saves,
    statements_of_saves, prints_of_saves, !app_nil_r.
  split; [reflexivity|].
  split; exists []; cbn; now rewrite ?app_nil_r.
Qed.

Lemma reads_poll (w : world) : reads w (poll w).
Proof.
  apply reads_saves with (jobs := filter due (w_pool w));
    [apply poll_keeps_db | apply poll_keeps_gets | apply poll_trace].
Qed.

Lemma reads_drain (w : world) : reads w (drain w).
Proof.
  apply reads_saves with (jobs := w_pool w);
    [apply drain_keeps_db | unfold drain; now rewrite exports_keep_gets
    | apply drain_trace].
Qed.

Lemma reads_log (ev : event) (w : world) :
  match ev with
  | EvSql q _ => is_select q = true
  | EvSleep _ => False
  | EvPrint (Formatted _ _ _) => False
  | _ => True
  end ->
  reads w (log ev w).
Proof.
  intros Hev.
  split; [reflexivity|]. split; [reflexivity|]. cbn [log w_trace].
  rewrite sleeps_app, statements_app, prints_app.
  split; [|split].
  - destruct ev; cbn; try apply app_nil_r. contradiction.
  - destruct ev; cbn; try (exists []; split; reflexivity).
    exists [q]. cbn. now rewrite Hev.
  - destruct ev as [| | |[s|]| |]; cbn; try (exists []; reflexivity);
      [exists [s]; reflexivity | contradiction].
Qed.

Lemma reads_effect (ev : event) (env : environment) (w : world) :
  match ev with
  | EvSql q _ => is_select q = true
  | EvSleep _ => False
  | EvPrint (Formatted _ _ _) => False
  | _ => True
  end ->
  reads w (snd (effect ev env w)).
Proof.
  intros Hev. cbn [effect snd].
  apply reads_trans with (b := poll w); [apply reads_poll | now apply reads_log].
Qed.

(** A SELECT leaves the world as the sending of it did. *)
Lemma select_world (c : connection) (q : sql) (args : list pyval)
      (env : environment) (w : world) :
  is_select q = true ->
  snd (query c q args env w) = log (EvSql q args) (poll w).
Proof.
  intros Hq. rewrite query_spec.
  destruct q; try discriminate; destruct (w_db w) as [t|] eqn:Hdb;
    cbn [run_sql snd]; try reflexivity;
    apply set_db_same; now rewrite w_db_log, poll_keeps_db.
Qed.

Lemma reads_select (c : connection) (q : sql) (args : list pyval)
      (env : environment) (w : world) :
  is_select q = true -> reads w (snd (query c q args env w)).
Proof.
  intros Hq. rewrite (@select_world c q args env w Hq).
  apply reads_trans with (b := poll w); [apply reads_poll | now apply reads_log].
Qed.

Lemma reads_bind {A B} (m : M A) (k : A -> M B) (env : environment) (w : world) :
  reads w (snd (m env w)) ->
  (forall a w1, reads w1 (snd (k a env w1))) ->
  reads w (snd (bind m k env w)).
Proof.
  intros Hm Hk. unfold bind.
  destruct (m env w) as [[a | e |] w1]; cbn [snd] in *; try exact Hm.
  apply reads_trans with (b := w1); [exact Hm | apply Hk].
Qed.

Lemma reads_async_get_data_for_xlsx_file (c : connection) (env : environment)
      (w : world) :
  reads w (snd (async_get_data_for_xlsx_file c env w)).
Proof.
  unfold async_get_data_for_xlsx_file, async_get_ten_last_records,
    async_get_records_count.
  apply reads_bind.
  - apply reads_bind.
    + apply reads_bind; [now apply reads_select|].
      intros records w1.
      destruct (map dict_values records) as [|[|count rest] others];
        try apply reads_refl.
      destruct (py_int count); apply reads_refl.
    + intros n w1. destruct (n <? 10); [apply reads_refl|].
      apply reads_bind; [now apply reads_select | intros; apply reads_refl].
  - intros [|row records] w1; apply reads_refl.
Qed.

(** The export branch of [main], whatever it finds. *)
Lemma reads_export_branch (x : bool) (c : connection) (env : environment) (w : world) :
  reads w
    (snd ((if x then
             data_for_xlsx_file <- async_get_data_for_xlsx_file c ;;
             match data_for_xlsx_file with
             | _ :: _ =>
                 run_in_executor_export data_for_xlsx_file ;;
                 print (Text export_done_notice)
             | [] => print (Text not_enough_notice)
             end
           else ret tt) env w)).
Proof.
  destruct x; [|apply reads_refl].
  apply reads_bind; [apply reads_async_get_data_for_xlsx_file|].
  intros [|row records] w1.
  - now apply reads_effect.
  - apply reads_bind.
    + cbn [run_in_executor_export snd].
      apply reads_saves with (jobs := []); cbn; now rewrite ?app_nil_r.
    + intros _ w2. now apply reads_effect.
Qed.

Lemma reads_main_without_frequency (fuel : nat) (env : environment) (w : world) :
  truthy (frequency (env_args env)) = false ->
  reads w (snd (main fuel env w)).
Proof.
  intros Hf. unfold main.
  unfold bind at 1. unfold get_cli_args. cbv beta iota.
  rewrite Hf. cbn [negb andb].
  destruct (excel (env_args env)); cbn [negb].
  - rewrite bind_ret.
    apply reads_bind.
    + rewrite async_get_connection_spec. cbn [snd].
      apply reads_trans with (b := poll w); [apply reads_poll | now apply reads_log].
    + intros c w1. apply reads_bind.
      * apply (@reads_export_branch true c env w1).
      * intros; apply reads_refl.
  - apply reads_refl.
Qed.

(** X8 (src/script.py, [main], lines 243-269): a process started without a
    frequency only reads.  Whatever the database, the connection and the
    export do, the rows of the relation are the ones it found, the weather
    service is never asked, nothing sleeps, every statement sent is a
    SELECT and every line printed a plain notice; in particular the
    relation is not created. *)
Theorem run_without_frequency_only_reads (fuel : nat) (env : environment) (w : world) :
  truthy (frequency (env_args env)) = false ->
  reads w (snd (script fuel env w)).
Proof.
  intros Hf.
  pose proof (@reads_main_without_frequency fuel env w Hf) as Hmain.
  destruct (script_cases fuel env w) as [[_ ->] | [ending ->]]; cbn [snd].
  - exact Hmain.
  - apply reads_trans with (b := snd (main fuel env w));
      [exact Hmain | apply reads_drain].
Qed.

Lemma export_only_run_reads :
  reads (initial_world (Some (sample_table 12)) [])
        (snd (script 0 (export_only 0) (initial_world (Some (sample_table 12)) []))).
Proof.
  apply (@run_without_frequency_only_reads 0 (export_only 0)
           (initial_world (Some (sample_table 12)) []) eq_refl).
Defined.

(** X9 (src/script.py, [main], lines 243-275): a process started without
    [--excel] never writes a file.  However long it runs and however it
    ends, no export job is queued, no workbook is saved and the files are
    the ones it found. *)
Theorem run_without_excel_saves_nothing (fuel : nat) (env : environment)
        (db : database) (fs : files) :
  excel (env_args env) = false ->
  no_export fs (snd (script fuel env (initial_world db fs))).
Proof.
  intros Hx.
  assert (Hmain : no_export fs (snd (main fuel env (initial_world db fs)))).
  { unfold main.
    unfold bind at 1. unfold get_cli_args. cbv beta iota.
    rewrite Hx. rewrite andb_true_r.
    destruct (truthy (frequency (env_args env))) eqn:Hf; cbn [negb].
    - rewrite bind_ret.
      unfold bind at 1. rewrite async_get_connection_spec.
      destruct (env_connect env) as [text|].
      + cbn. repeat split.
      + rewrite bind_ret.
        pose proof (@no_export_kept fs fuel (frequency (env_args env)) Connection
                      env (log EvConnect (poll (initial_world db fs)))) as Hkept.
        rewrite Hf in Hkept. apply Hkept. cbn. repeat split.
    - cbn. repeat split. }
  destruct (script_cases fuel env (initial_world db fs)) as [[_ ->] | [ending ->]];
    cbn [snd].
  - exact Hmain.
  - now apply drain_no_export.
Qed.

Lemma ingestion_run_saves_nothing :
  no_export [] (snd (script 3 healthy_run (initial_world None []))).
Proof.
  apply (@run_without_excel_saves_nothing 3 healthy_run None [] eq_refl).
Defined.

(* ===================================================================== *)
(** * Further properties: the turns of the ingestion loop *)
(* ===================================================================== *)

Lemma sleeps_poll (w : world) : sleeps (w_trace (poll w)) = sleeps (w_trace w).
Proof. now rewrite poll_trace, sleeps_app, sleeps_of_saves, app_nil_r. Qed.

Lemma statements_poll (w : world) :
  statements (w_trace (poll w)) = statements (w_trace w).
Proof. now rewrite poll_trace, statements_app, statements_of_saves, app_nil_r. Qed.

Lemma prints_poll (w : world) : prints (w_trace (poll w)) = prints (w_trace w).
Proof. now rewrite poll_trace, prints_app, prints_of_saves, app_nil_r. Qed.

(** A fetch that gives a record got a response that parses to it, six
    fields long, and counted one request. *)
Lemma async_get_weather_data_done (env : environment) (w w1 : world)
      (record : list (string * pyval)) :
  async_get_weather_data latitude longitude api_key env w = (Done record, w1) ->
  w1 = after_request w /\ List.length record = 6%nat.
Proof.
  rewrite async_get_weather_data_spec.
  destruct (env_service env (w_gets w)) as [e | e | data].
  - destruct e; try discriminate. destruct (is_ClientResponseError cls); discriminate.
  - discriminate.
  - destruct (py_getitem data "fact") as [fact|e]; [|discriminate].
    intros H. injection H as Hparse <-. split; [reflexivity|].
    exact (@parse_weather_data_six fact env (after_request w) record Hparse).
Qed.

(** One completed turn: one request, one row, one sleep. *)
Lemma ingestion_cycle_done (f : option string) (c : connection) (env : environment)
      (w w' : world) (t : table) :
  w_db w = Some t ->
  ingestion_cycle f c env w = (Done tt, w') ->
  exists record m,
    minutes_of f = Ok m /\
    w_db w' = Some (mkTable (rows t ++ [inserted_row t (dict_values record)])
                            (next_id t + 1)) /\
    w_gets w' = S (w_gets w) /\
    sleeps (w_trace w') = sleeps (w_trace w) ++ [m * 60] /\
    statements (w_trace w') = statements (w_trace w) ++ [InsertInto weather_columns] /\
    List.length record = 6%nat /\
    prints (w_trace w') = prints (w_trace w) ++ [added_notice record].
Proof.
  intros Hdb H. unfold ingestion_cycle in H.
  apply bind_done_inv in H as (record & w1 & Hfetch & H).
  apply async_get_weather_data_done in Hfetch as [-> Hsix].
  apply bind_done_inv in H as ([] & w2 & Hinsert & H).
  rewrite (@async_insert_data_into_db_spec c record env (after_request w) t) in Hinsert;
    [|cbn [after_request w_db log]; now rewrite poll_keeps_db | exact Hsix].
  injection Hinsert as <-.
  apply bind_done_inv in H as ([] & w3 & Hprint & H).
  injection Hprint as <-.
  apply bind_done_inv in H as (m & w4 & Hm & H).
  fold (minutes_of f) in Hm.
  destruct (minutes_of f) as [m'|e] eqn:Hminutes; [|discriminate].
  injection Hm as -> <-.
  injection H as <-.
  exists record, m. split; [reflexivity|].
  split; [|split; [|split; [|split; [|split; [exact Hsix|]]]]].
  - cbn [log w_db]. rewrite poll_keeps_db. cbn [log w_db]. rewrite poll_keeps_db.
    reflexivity.
  - cbn [log w_gets]. rewrite poll_keeps_gets. cbn [log w_gets]. rewrite poll_keeps_gets.
    cbn [set_db log w_gets]. rewrite poll_keeps_gets.
    cbn [after_request log w_gets]. now rewrite poll_keeps_gets.
  - cbn [log w_trace]. rewrite sleeps_app, sleeps_poll.
    cbn [log w_trace]. rewrite sleeps_app, sleeps_poll.
    cbn [set_db log w_trace]. rewrite sleeps_app, sleeps_poll.
    cbn [after_request log w_trace]. rewrite sleeps_app, sleeps_poll.
    cbn. now rewrite !app_nil_r.
  - cbn [log w_trace]. rewrite statements_app, statements_poll.
    cbn [log w_trace]. rewrite statements_app, statements_poll.
    cbn [set_db log w_trace]. rewrite statements_app, statements_poll.
    cbn [after_request log w_trace]. rewrite statements_app, statements_poll.
    cbn. now rewrite !app_nil_r.
  - cbn [log w_trace]. rewrite prints_app, prints_poll.
    cbn [log w_trace]. rewrite prints_app, prints_poll.
    cbn [set_db log w_trace]. rewrite prints_app, prints_poll.
    cbn [after_request log w_trace]. rewrite prints_app, prints_poll.
    cbn. now rewrite !app_nil_r.
Qed.

(** [k] completed turns. *)
Lemma while_true_turns (f : option string) (c : connection) (env : environment)
      (k : nat) :
  forall (w wk : world) (t : table),
    w_db w = Some t ->
    while_true k (ingestion_cycle f c) env w = (Running, wk) ->
    (exists tk, w_db wk = Some tk /\
                List.length (rows tk) = (List.length (rows t) + k)%nat /\
                next_id tk = next_id t + Z.of_nat k) /\
    w_gets wk = (w_gets w + k)%nat /\
    (forall m, minutes_of f = Ok m ->
               sleeps (w_trace wk) = sleeps (w_trace w) ++ repeat (m * 60) k) /\
    statements (w_trace wk)
    = statements (w_trace w) ++ repeat (InsertInto weather_columns) k.
Proof.
  induction k as [|k IH]; intros w wk t Hdb H.
  - injection H as <-. cbn [repeat]. rewrite !app_nil_r, !Nat.add_0_r.
    split; [exists t; split; [exact Hdb | split; [reflexivity | cbn; lia]]|].
    auto.
  - cbn [while_true] in H.
    apply bind_running_inv in H; [|apply returns_ingestion_cycle].
    destruct H as ([] & w1 & Hturn & H).
    destruct (@ingestion_cycle_done f c env w w1 t Hdb Hturn)
      as (record & m & Hm & Hdb1 & Hgets1 & Hsleeps1 & Hsql1 & _).
    destruct (IH w1 wk _ Hdb1 H) as ((tk & Hdbk & Hlen & Hnext) & Hgets & Hsleeps & Hsql).
    split; [|split; [|split]].
    + exists tk. split; [exact Hdbk|]. cbn [rows next_id] in Hlen, Hnext.
      rewrite length_app in Hlen. cbn [List.length] in Hlen. split; lia.
    + lia.
    + intros m' Hm'. assert (m' = m) by congruence. subst m'.
      rewrite (Hsleeps m Hm), Hsleeps1, <- app_assoc. reflexivity.
    + rewrite Hsql, Hsql1, <- app_assoc. reflexivity.
Qed.

(** A [main] still in its loop came through the connection, the export
    branch and the creation of the relation. *)
Lemma main_running_inv (k : nat) (env : environment) (w wk : world) :
  main k env w = (Running, wk) ->
  exists w4 selects notices,
    truthy (frequency (env_args env)) = true /\
    env_connect env = None /\
    w_db w4 = Some (ensured (w_db w)) /\
    w_gets w4 = w_gets w /\
    sleeps (w_trace w4) = sleeps (w_trace w) /\
    forallb is_select selects = true /\
    statements (w_trace w4)
    = statements (w_trace w) ++ selects ++ [CreateTableIfNotExists] /\
    prints (w_trace w4) = prints (w_trace w) ++ map Text notices /\
    while_true k (ingestion_cycle (frequency (env_args env)) Connection) env w4
    = (Running, wk).
Proof.
  unfold main. intros H.
  apply bind_running_inv in H; [|intros ? ?; discriminate].
  destruct H as ([f x] & w0 & Hargs & H).
  injection Hargs as <- <- <-.
  apply bind_running_inv in H;
    [|destruct (_ && _); unfold sys_exit; auto with returns].
  destruct H as ([] & w1 & Hcheck & H).
  assert (w1 = w) as ->.
  { destruct (_ && _); [discriminate | now injection Hcheck]. }
  apply bind_running_inv in H; [|apply returns_async_get_connection].
  destruct H as ([] & w2 & Hconn & H).
  rewrite async_get_connection_spec in Hconn.
  destruct (env_connect env) as [text|]; [discriminate|].
  injection Hconn as <-.
  apply bind_running_inv in H; [|apply returns_export_branch].
  destruct H as ([] & w3 & Hexport & H).
  pose proof (@reads_export_branch (excel (env_args env)) Connection env
                (log EvConnect (poll w))) as Hreads.
  rewrite Hexport in Hreads. cbn [snd] in Hreads.
  assert (Hreads' : reads w w3).
  { apply reads_trans with (b := log EvConnect (poll w)); [|exact Hreads].
    apply reads_trans with (b := poll w); [apply reads_poll | now apply reads_log]. }
  destruct Hreads' as (Hdb & Hgets & Hsleeps & (selects & Hsql & Hselects)
                       & (notices & Hout)).
  destruct (truthy (frequency (env_args env))); [|discriminate].
  apply bind_running_inv in H; [|apply returns_async_create_table].
  destruct H as ([] & w4 & Hcreate & H).
  rewrite async_create_table_spec in Hcreate. injection Hcreate as <-.
  exists (set_db (Some (ensured (w_db w3)))
                 (log (EvSql CreateTableIfNotExists []) (poll w3))), selects, notices.
  split; [reflexivity|]. split; [reflexivity|].
  split; [cbn [set_db w_db]; now rewrite Hdb|].
  split; [cbn [set_db log w_gets]; now rewrite poll_keeps_gets|].
  split; [cbn [set_db log w_trace]; rewrite sleeps_app, sleeps_poll; cbn;
          now rewrite app_nil_r|].
  split; [exact Hselects|].
  split; [|split; [|exact H]].
  - cbn [set_db log w_trace]. rewrite statements_app, statements_poll, Hsql.
    cbn. now rewrite <- app_assoc.
  - cbn [set_db log w_trace]. rewrite prints_app, prints_poll, Hout.
    cbn. now rewrite app_nil_r.
Qed.

(** X10 (src/script.py, [main], lines 263-275): the books after [k]
    completed turns of the loop.  Exactly [k] requests went to the weather
    service; the relation exists and holds [k] rows more than it held at
    the start (none, if it was not there); the statements sent are some
    SELECTs of the export branch, one CREATE TABLE IF NOT EXISTS, and then
    [k] INSERTs; and the process slept [k] times, each time sixty times the
    number the frequency argument stands for, which is an integer as soon
    as one turn was completed. *)
Theorem completed_turns_accounting (env : environment) (db : database) (fs : files)
        (k : nat) (wk : world) :
  main k env (initial_world db fs) = (Running, wk) ->
  w_gets wk = k /\
  (exists t, w_db wk = Some t /\
             List.length (rows t) = (List.length (rows (ensured db)) + k)%nat) /\
  (exists selects,
      forallb is_select selects = true /\
      statements (w_trace wk)
      = selects ++ CreateTableIfNotExists :: repeat (InsertInto weather_columns) k) /\
  (exists m, ((0 < k)%nat -> minutes_of (frequency (env_args env)) = Ok m) /\
             sleeps (w_trace wk) = repeat (m * 60) k).
Proof.
  intros H.
  destruct (@main_running_inv k env (initial_world db fs) wk H)
    as (w4 & selects & notices & Hf & Hconn & Hdb & Hgets & Hsleeps & Hselects & Hsql
        & _ & Hloop).
  cbn [initial_world w_db w_gets w_trace sleeps statements app] in Hdb, Hgets, Hsleeps, Hsql.
  destruct (@while_true_turns _ _ _ k w4 wk _ Hdb Hloop)
    as ((tk & Hdbk & Hlen & _) & Hgetsk & Hsleepsk & Hsqlk).
  split; [lia|].
  split; [exists tk; auto|].
  split.
  - exists selects. split; [exact Hselects|].
    rewrite Hsqlk, Hsql, <- app_assoc. reflexivity.
  - destruct k as [|k].
    + exists 0. split; [lia|].
      injection Hloop as <-. exact Hsleeps.
    + cbn [while_true] in Hloop.
      apply bind_running_inv in Hloop; [|apply returns_ingestion_cycle].
      destruct Hloop as ([] & w5 & Hturn & _).
      destruct (@ingestion_cycle_done _ _ env w4 w5 _ Hdb Hturn)
        as (record & m & Hm & _).
      exists m. split; [intros _; exact Hm|].
      now rewrite (Hsleepsk m Hm), Hsleeps.
Qed.

Lemma two_turns_accounted :
  exists wk,
    main 2 healthy_run (initial_world None []) = (Running, wk) /\
    w_gets wk = 2%nat.
Proof.
  exists (snd (main 2 healthy_run (initial_world None []))).
  assert (H : main 2 healthy_run (initial_world None [])
              = (Running, snd (main 2 healthy_run (initial_world None []))))
    by (vm_compute; reflexivity).
  split; [exact H|].
  exact (proj1 (@completed_turns_accounting healthy_run None [] 2 _ H)).
Defined.




(* ===================================================================== *)
(** * Further properties: a loop that never ends *)
(* ===================================================================== *)








(* ===================================================================== *)
(** * Further properties: the sheet an export writes *)
(* ===================================================================== *)






(* ===================================================================== *)
(** * Further properties: a label tells its code *)
(* ===================================================================== *)

Lemma py_match_same_label (cases : list (literal * string)) (v v' : pyval)
      (label : string) :
  NoDup (map snd cases) ->
  py_match v cases = PStr label ->
  py_match v' cases = PStr label ->
  exists l, In (l, label) cases /\ py_eq v l = true /\ py_eq v' l = true.
Proof.
  induction cases as [|[l lab] rest IH]; cbn [py_match map snd]; intros Hnd H H'.
  - discriminate.
  - inversion Hnd as [|? ? Hnotin Hrest]; subst.
    destruct (py_eq v l) eqn:E, (py_eq v' l) eqn:E'.
    + injection H as ->. exists l. split; [now left | auto].
    + injection H as ->.
      destruct (py_match_label v' rest) as [Hn | (label' & Heq & Hin)];
        rewrite H' in *; [discriminate|].
      injection Heq as <-. contradiction.
    + injection H' as ->.
      destruct (py_match_label v rest) as [Hn | (label' & Heq & Hin)];
        rewrite H in *; [discriminate|].
      injection Heq as <-. contradiction.
    + destruct (IH Hrest H H') as (l' & Hin & Hl).
      exists l'. split; [now right | exact Hl].
Qed.

Lemma py_eq_str_inv (v : pyval) (s : string) :
  py_eq v (LitStr s) = true -> v = PStr s.
Proof.
  destruct v; cbn; try discriminate. intros H. apply String.eqb_eq in H. now subst.
Qed.

Lemma py_eq_num_inv (v : pyval) (l : literal) :
  (forall s, l <> LitStr s) ->
  py_eq v l = true ->
  exists q r, py_num v = Some q /\ literal_num l = Some r /\ Qeq q r.
Proof.
  intros Hl. destruct l as [z | f | s]; [| |now destruct (Hl s)]; cbn [py_eq];
    destruct (py_num v) as [q|]; try discriminate;
    destruct (literal_num _) as [r|]; try discriminate;
    intros H; apply Qeq_bool_iff in H; eauto.
Qed.

Lemma same_number_of_literal (v v' : pyval) (l : literal) :
  (forall s, l <> LitStr s) ->
  py_eq v l = true -> py_eq v' l = true -> same_number v v'.
Proof.
  intros Hl H H'.
  destruct (@py_eq_num_inv v l Hl H) as (q & r & Hq & Hr & Hqr).
  destruct (@py_eq_num_inv v' l Hl H') as (q' & r' & Hq' & Hr' & Hqr').
  exists q, q'. split; [exact Hq|]. split; [exact Hq'|].
  assert (r' = r) by congruence. subst r'.
  now rewrite Hqr, Hqr'.
Qed.

Ltac distinct_labels :=
  cbn [map snd];
  repeat (apply NoDup_cons;
          [let Hin := fresh "Hin" in
           cbn; intros Hin;
           repeat (destruct Hin as [Hin | Hin]; [discriminate Hin|]); exact Hin|]);
  apply NoDup_nil.

Ltac numeric_case Hin :=
  cbn in Hin;
  repeat (destruct Hin as [Hin | Hin];
          [injection Hin as <- _; intros s; discriminate|]);
  contradiction.

(** X14 (src/script.py, [convert_wind_direction], [convert_precipitation_type],
    [convert_precipitation_strength], lines 32-90): a label tells its code.
    Within one translator no two cases share a label, so two values that
    get the same label are the same wind code, or compare equal as
    numbers. *)
Theorem translators_are_injective :
  (forall v v' label,
      convert_wind_direction v = PStr label ->
      convert_wind_direction v' = PStr label -> v = v') /\
  (forall v v' label,
      convert_precipitation_type v = PStr label ->
      convert_precipitation_type v' = PStr label -> same_number v v') /\
  (forall v v' label,
      convert_precipitation_strength v = PStr label ->
      convert_precipitation_strength v' = PStr label -> same_number v v').
Proof.
  split; [|split]; intros v v' label H H'.
  - destruct (@py_match_same_label wind_direction_cases v v' label) as (l & Hin & Hv & Hv');
      [unfold wind_direction_cases; distinct_labels | exact H | exact H' |].
    assert (Hstr : exists s, l = LitStr s).
    { cbn in Hin.
      repeat (destruct Hin as [Hin | Hin]; [injection Hin as <- _; eauto|]).
      contradiction. }
    destruct Hstr as [s ->].
    apply py_eq_str_inv in Hv, Hv'. congruence.
  - destruct (@py_match_same_label precipitation_type_cases v v' label)
      as (l & Hin & Hv & Hv');
      [unfold precipitation_type_cases; distinct_labels | exact H | exact H' |].
    apply (@same_number_of_literal v v' l); [numeric_case Hin | exact Hv | exact Hv'].
  - destruct (@py_match_same_label precipitation_strength_cases v v' label)
      as (l & Hin & Hv & Hv');
      [unfold precipitation_strength_cases; distinct_labels | exact H | exact H' |].
    apply (@same_number_of_literal v v' l); [numeric_case Hin | exact Hv | exact Hv'].
Qed.

Lemma true_and_one_are_rain : same_number (PBool true) (PFloat 1).
Proof.
  exact (proj1 (proj2 translators_are_injective)
               (PBool true) (PFloat 1) "Дождь" eq_refl eq_refl).
Defined.
